(** * Verification of the ESG report crawler (src/usr/src/app/src/main.js)

    A shallow embedding of the request handler of the crawler: the
    link-admission filter handed to [enqueueLinks], the metadata
    cascades, the PDF/report-link detector and the record emitter.

    Strings are JavaScript strings: finite sequences of UTF-16 code
    units, here [list N].  The parsed document is a tree of element and
    text nodes, queried the way the handler queries it through cheerio.
    The WHATWG URL parser behind [new URL(...)] is an interface
    ([URLParser]); a small instance for plain http(s) URLs is used to
    evaluate the handler on concrete pages. *)

From Stdlib Require Import List NArith Bool Arith Lia.
From Stdlib Require String Ascii.
Import ListNotations String.StringSyntax.
Delimit Scope string_scope with string.

Set Implicit Arguments.
Set Warnings "-register-all".

(** ** JavaScript strings *)

Definition jsstring := list N.

(** A string literal of the source. *)
Definition lit (s : String.string) : jsstring :=
  map Ascii.N_of_ascii (String.list_ascii_of_string s).

Arguments lit s%_string.

Definition jsstring_eq_dec : forall a b : jsstring, {a = b} + {a <> b} :=
  list_eq_dec N.eq_dec.

Fixpoint str_eqb (a b : jsstring) : bool :=
  match a, b with
  | [], [] => true
  | x :: a', y :: b' => N.eqb x y && str_eqb a' b'
  | _, _ => false
  end.

(** [s.slice(0, n)] *)
Definition slice0 (n : nat) (s : jsstring) : jsstring := firstn n s.

(** WhiteSpace and LineTerminator code units, as used by
    [String.prototype.trim]. *)
Definition is_js_space (c : N) : bool :=
  ((9 <=? c) && (c <=? 13)
   || (c =? 32) || (c =? 160) || (c =? 5760)
   || ((8192 <=? c) && (c <=? 8202))
   || (c =? 8232) || (c =? 8233) || (c =? 8239) || (c =? 8287)
   || (c =? 12288) || (c =? 65279))%N.

Fixpoint trim_start (s : jsstring) : jsstring :=
  match s with
  | c :: s' => if is_js_space c then trim_start s' else s
  | [] => []
  end.

Definition trim (s : jsstring) : jsstring :=
  rev (trim_start (rev (trim_start s))).

(** [s.split(sep)] for a one-character separator; the result of
    splitting the empty string is the one-element array [[""]]. *)
Fixpoint split_on (sep : N) (s : jsstring) : list jsstring :=
  match s with
  | [] => [[]]
  | c :: s' =>
      if N.eqb c sep then [] :: split_on sep s'
      else match split_on sep s' with
           | h :: t => (c :: h) :: t
           | [] => [[c]]
           end
  end.

(** [parts.join(sep)] *)
Fixpoint join (sep : jsstring) (parts : list jsstring) : jsstring :=
  match parts with
  | [] => []
  | [p] => p
  | p :: rest => p ++ sep ++ join sep rest
  end.

(** [pat] read at the start of [s], characters compared with [eqc]. *)
Fixpoint starts_with (eqc : N -> N -> bool) (pat s : jsstring) : bool :=
  match pat, s with
  | [], _ => true
  | _ :: _, [] => false
  | p :: pat', c :: s' => eqc p c && starts_with eqc pat' s'
  end.

(** Search for [pat] from every start index, left to right. *)
Fixpoint search (eqc : N -> N -> bool) (pat s : jsstring) : bool :=
  starts_with eqc pat s
  || match s with
     | [] => false
     | _ :: s' => search eqc pat s'
     end.

(** [s.includes(pat)] *)
Definition includes (pat s : jsstring) : bool := search N.eqb pat s.

(** [s.endsWith(suf)] *)
Definition endsWith (suf s : jsstring) : bool :=
  (length suf <=? length s)
  && str_eqb (skipn (length s - length suf) s) suf.

(** [toLowerCase] on the ASCII range.  It is applied by the handler to a
    serialised URL only, and URL serialisations are ASCII. *)
Definition lower (c : N) : N :=
  if ((65 <=? c) && (c <=? 90))%N then (c + 32)%N else c.

Definition toLowerCase (s : jsstring) : jsstring := map lower s.

(** Canonicalisation of a code unit under the [i] flag (no [u] flag):
    upper-casing, where a code unit outside ASCII never canonicalises
    into ASCII.  All patterns of the handler are ASCII, so only the
    ASCII part of the mapping can make two code units agree. *)
Definition canon (c : N) : N :=
  if ((97 <=? c) && (c <=? 122))%N then (c - 32)%N else c.

Definition eq_ci (a b : N) : bool := N.eqb (canon a) (canon b).

(** [/a1|a2|.../.test(s)] for literal alternatives: at each start index,
    left to right, the alternatives are tried in order. *)
Fixpoint regex_test (eqc : N -> N -> bool) (alts : list jsstring)
    (s : jsstring) : bool :=
  existsb (fun a => starts_with eqc a s) alts
  || match s with
     | [] => false
     | _ :: s' => regex_test eqc alts s'
     end.

(** The same with the [i] flag. *)
Definition regex_test_i (alts : list jsstring) (s : jsstring) : bool :=
  regex_test eq_ci alts s.

(** [\d] and [\w] *)
Definition is_digit (c : N) : bool := ((48 <=? c) && (c <=? 57))%N.

Definition is_word (c : N) : bool :=
  (is_digit c
   || ((65 <=? c) && (c <=? 90)) || ((97 <=? c) && (c <=? 122))
   || (c =? 95))%N.

(** [(20\d{2}|19\d{2})\b] read at the start of [s]. *)
Definition year_at (s : jsstring) : bool :=
  match s with
  | c1 :: c2 :: d1 :: d2 :: rest =>
      (((c1 =? 50) && (c2 =? 48)) || ((c1 =? 49) && (c2 =? 57)))%N
      && is_digit d1 && is_digit d2
      && match rest with
         | [] => true
         | c :: _ => negb (is_word c)
         end
  | _ => false
  end.

(** [s.match(/\b(20\d{2}|19\d{2})\b/)]: [m[0]] of the first match.
    [prev_word] tells whether the code unit before [s] is a word
    character (false at the start of the input). *)
Fixpoint year_match (prev_word : bool) (s : jsstring) : option jsstring :=
  match s with
  | [] => None
  | c :: s' =>
      if negb prev_word && year_at s then Some (firstn 4 s)
      else year_match (is_word c) s'
  end.

(** ** JavaScript values that are a string or [undefined] *)

Definition jsval := option jsstring.

Definition truthy (v : jsval) : bool :=
  match v with
  | Some (_ :: _) => true
  | _ => false
  end.

(** [a || b] *)
Definition js_or (a b : jsval) : jsval := if truthy a then a else b.

(** A value known to be a string. *)
Definition to_str (v : jsval) : jsstring :=
  match v with
  | Some s => s
  | None => []
  end.

(** [Array.from(new Set(xs))]: [Set.prototype.add] keeps the first
    insertion of a value; iteration is in insertion order. *)
Definition set_add (s : list jsstring) (x : jsstring) : list jsstring :=
  if in_dec jsstring_eq_dec x s then s else s ++ [x].

Definition array_from_set (xs : list jsstring) : list jsstring :=
  fold_left set_add xs [].

(** ** The parsed document

    What the HTML parser hands to cheerio: a forest of element and text
    nodes (the children of the document root).  Element and attribute
    names are stored in lower case, as the parser produces them.
    Comments and the doctype, which are no elements and carry no text,
    are left out. *)

Definition attribs := list (jsstring * jsstring).

Inductive node : Type :=
| Text (data : jsstring)
| Element (name : jsstring) (attrs : attribs) (children : list node).

Definition document := list node.

(** The text of a node: the data of its text nodes, in document order. *)
Fixpoint text_of (n : node) : jsstring :=
  match n with
  | Text d => d
  | Element _ _ ch => concat (map text_of ch)
  end.

(** An element as a selection holds it: with its ancestors (nearest
    first) and the nodes that follow it under the same parent. *)
Record elem := {
  e_name : jsstring;
  e_attrs : attribs;
  e_children : list node;
  e_ancestors : list (jsstring * attribs);
  e_following : list node
}.

(** The node an element of a selection is. *)
Definition node_of (e : elem) : node :=
  Element (e_name e) (e_attrs e) (e_children e).

(** The text of a node as the selector engine reads it (domutils'
    [getText], which css-select uses for [:contains]): as [text_of],
    but a [br] element reads as a line feed. *)
Fixpoint getText (n : node) : jsstring :=
  match n with
  | Text d => d
  | Element nm _ ch =>
      if str_eqb nm (lit "br") then [10%N] else concat (map getText ch)
  end.

(** The elements of a subtree in document order. *)
Fixpoint walk (anc : list (jsstring * attribs)) (n : node)
    (fol : list node) : list elem :=
  match n with
  | Text _ => []
  | Element nm at_ ch =>
      {| e_name := nm; e_attrs := at_; e_children := ch;
         e_ancestors := anc; e_following := fol |}
      :: (fix go (ns : list node) : list elem :=
            match ns with
            | [] => []
            | m :: rest => walk ((nm, at_) :: anc) m rest ++ go rest
            end) ch
  end.

Fixpoint walk_forest (anc : list (jsstring * attribs)) (ns : list node)
    : list elem :=
  match ns with
  | [] => []
  | m :: rest => walk anc m rest ++ walk_forest anc rest
  end.

Definition all_elements (doc : document) : list elem := walk_forest [] doc.

Fixpoint lookup (k : jsstring) (a : attribs) : jsval :=
  match a with
  | [] => None
  | (k', v) :: a' => if str_eqb k' k then Some v else lookup k a'
  end.

(** *** Selections and the cheerio methods the handler calls *)

Definition selection := list elem.

(** [$(selector)]: the matching elements in document order. *)
Definition select (doc : document) (sel : elem -> bool) : selection :=
  filter sel (all_elements doc).

Definition elem_text (e : elem) : jsstring :=
  concat (map text_of (e_children e)).

(** [.first()] *)
Definition first (s : selection) : selection := firstn 1 s.

(** [.text()]: the texts of the selected elements, concatenated. *)
Definition text (s : selection) : jsstring := concat (map elem_text s).

(** [.attr(k)]: the attribute of the first selected element. *)
Definition attr (k : jsstring) (s : selection) : jsval :=
  match s with
  | [] => None
  | e :: _ => lookup k (e_attrs e)
  end.

(** The next element sibling. *)
Fixpoint next_sibling (anc : list (jsstring * attribs)) (fol : list node)
    : selection :=
  match fol with
  | [] => []
  | Text _ :: rest => next_sibling anc rest
  | Element nm at_ ch :: rest =>
      [{| e_name := nm; e_attrs := at_; e_children := ch;
          e_ancestors := anc; e_following := rest |}]
  end.

(** [.next()]; the handler calls it on selections of at most one
    element. *)
Definition next (s : selection) : selection :=
  flat_map (fun e => next_sibling (e_ancestors e) (e_following e)) s.

(** *** Selectors *)

Definition tag_is (nm : jsstring) (e : elem) : bool := str_eqb (e_name e) nm.

(** [[k="v"]] *)
Definition attr_is (k v : jsstring) (a : attribs) : bool :=
  match lookup k a with
  | Some x => str_eqb x v
  | None => false
  end.

(** [[k]] *)
Definition has_attr (k : jsstring) (a : attribs) : bool :=
  match lookup k a with
  | Some _ => true
  | None => false
  end.

(** [.c] is [[class~="c"]], which css-select tests with the regular
    expression [(?:^|\s)c(?:$|\s)] on the attribute value.  [at_edge]
    tells whether the value starts here or a white-space character
    stands just before. *)
Fixpoint class_scan (at_edge : bool) (c v : jsstring) : bool :=
  (at_edge && starts_with N.eqb c v
   && match skipn (length c) v with
      | [] => true
      | x :: _ => is_js_space x
      end)
  || match v with
     | [] => false
     | x :: v' => class_scan (is_js_space x) c v'
     end.

(** [.c] *)
Definition has_class (c : jsstring) (a : attribs) : bool :=
  match lookup (lit "class") a with
  | Some v => class_scan true c v
  | None => false
  end.

(** [A B]: [B] has an ancestor matching [A]. *)
Definition inside (A : jsstring * attribs -> bool) (e : elem) : bool :=
  existsb A (e_ancestors e).

(** [meta[k="v"]] *)
Definition meta_with (k v : jsstring) (e : elem) : bool :=
  tag_is (lit "meta") e && attr_is k v (e_attrs e).

(** [*:contains("t")] *)
Definition contains (t : jsstring) (e : elem) : bool :=
  includes t (getText (node_of e)).

(** ** Requests, configuration, output *)

(** A crawl request: [url], [loadedUrl] (absent before the fetch) and
    [userData.startHost] ([undefined] when the tag is absent). *)
Record Request := {
  req_url : jsstring;
  req_loadedUrl : option jsstring;
  req_startHost : jsval
}.

(** The actor input, after the defaults of the destructuring. *)
Record Input := {
  maxRequestsPerCrawl : nat;
  detectPdfLinks : bool;
  followInternalOnly : bool
}.

(** The object handed to [Dataset.pushData]. *)
Record OutputRecord := {
  company : jsstring;
  title : jsstring;
  date : jsstring;
  pdf_url : jsstring;
  exec_summary : jsstring;
  tags : list jsstring;
  url : jsstring
}.

Inductive LogLevel := Info | Debug | Warning.

(** A call of [log.info], [log.debug] or [log.warning]: the message and
    the fields of the data object. *)
Record LogEvent := {
  level : LogLevel;
  message : jsstring;
  data : list (jsstring * jsstring)
}.

(** The outside world the handler writes to: the dataset and the log. *)
Record Sink := {
  pushed : list OutputRecord;
  events : list LogEvent
}.

(** A computation that returns or throws an error with a message. *)
Inductive result (A : Type) : Type :=
| Ok (a : A)
| Throw (msg : jsstring).

Arguments Ok {A} a.
Arguments Throw {A} msg.

(** Handler code: it reads and extends the sink, and returns or throws. *)
Definition M (A : Type) : Type := Sink -> Sink * result A.

Definition ret {A : Type} (a : A) : M A := fun s => (s, Ok a).

Definition bind {A B : Type} (m : M A) (f : A -> M B) : M B :=
  fun s =>
    match m s with
    | (s', Ok a) => f a s'
    | (s', Throw e) => (s', Throw e)
    end.

Notation "x <- m ;; k" := (bind m (fun x => k))
  (at level 61, m at next level, right associativity).
Notation "m ;;; k" := (bind m (fun _ => k))
  (at level 61, right associativity).

Definition lift {A : Type} (r : result A) : M A := fun s => (s, r).

(** [try { body } catch (err) { handler(err.message) }] *)
Definition try_catch (body : M unit) (handler : jsstring -> M unit) : M unit :=
  fun s =>
    match body s with
    | (s', Ok a) => (s', Ok a)
    | (s', Throw e) => handler e s'
    end.

(** [await Dataset.pushData(r)] *)
Definition pushData (r : OutputRecord) : M unit :=
  fun s => ({| pushed := pushed s ++ [r]; events := events s |}, Ok tt).

(** [log.info(...)], [log.debug(...)], [log.warning(...)] *)
Definition log (lv : LogLevel) (msg : jsstring)
    (d : list (jsstring * jsstring)) : M unit :=
  fun s =>
    ({| pushed := pushed s;
        events := events s ++ [{| level := lv; message := msg; data := d |}] |},
     Ok tt).

(** ** The URL constructor

    [url_host u] is [new URL(u).host] and [url_resolve href base] is
    [new URL(href, base).toString()]; [None] when the constructor
    throws its [TypeError]. *)
Class URLParser := {
  url_host : jsstring -> option jsstring;
  url_resolve : jsstring -> jsstring -> option jsstring
}.

(** The message of the error the constructor throws. *)
Definition invalid_url : jsstring := lit "Invalid URL".

Definition new_URL_host `{URLParser} (u : jsstring) : result jsstring :=
  match url_host u with
  | Some h => Ok h
  | None => Throw invalid_url
  end.

Definition new_URL_toString `{URLParser} (href base : jsstring)
    : result jsstring :=
  match url_resolve href base with
  | Some a => Ok a
  | None => Throw invalid_url
  end.

(** ** Metadata extraction (pure queries on the document) *)

Definition content : jsstring := lit "content".
Definition body_text (doc : document) : jsstring :=
  text (select doc (tag_is (lit "body"))).

(** [const company = ...] *)
Definition company_of (doc : document) : jsstring :=
  to_str
    (js_or (js_or (js_or (js_or
       (attr content (select doc (meta_with (lit "property") (lit "og:site_name"))))
       (attr content (select doc (meta_with (lit "name") (lit "application-name")))))
       (attr content (select doc (meta_with (lit "name") (lit "author")))))
       (Some (trim (text (first (select doc
          (fun e => inside (fun a => str_eqb (fst a) (lit "header")) e
                    && (tag_is (lit "h1") e || tag_is (lit "h2") e))))))))
       (Some [])).

(** [const title = ...] *)
Definition title_of (doc : document) : jsstring :=
  to_str
    (js_or (js_or (js_or (js_or
       (attr content (select doc (meta_with (lit "property") (lit "og:title"))))
       (attr content (select doc (meta_with (lit "name") (lit "twitter:title")))))
       (Some (trim (text (first (select doc (tag_is (lit "h1"))))))))
       (Some (trim (text (select doc (tag_is (lit "title")))))))
       (Some [])).

(** [let date = ...; if (!date) {...}] *)
Definition date_of (doc : document) : jsstring :=
  let time := select doc (tag_is (lit "time")) in
  let date :=
    to_str
      (js_or (js_or (js_or
         (attr content (select doc (meta_with (lit "name") (lit "article:published_time"))))
         (attr (lit "datetime") (first time)))
         (Some (trim (text (first time)))))
         (Some [])) in
  if negb (truthy (Some date)) then
    let body := slice0 1200 (body_text doc) in
    match year_match false body with
    | Some m0 => m0
    | None => date
    end
  else date.

(** The selector of the heading search:
    [*:contains("Executive Summary"), *:contains("EXECUTIVE SUMMARY"),
     *:contains("Summary")]. *)
Definition summary_selector (e : elem) : bool :=
  contains (lit "Executive Summary") e
  || contains (lit "EXECUTIVE SUMMARY") e
  || contains (lit "Summary") e.

(** The [.filter] callback: [/executive summary|summary/i.test($(el).text())]. *)
Definition summary_filter (e : elem) : bool :=
  regex_test_i [lit "executive summary"; lit "summary"] (text [e]).

Definition execHeading (doc : document) : selection :=
  first (filter summary_filter (select doc summary_selector)).

(** The [while (node && tries < 6)] loop, with [fuel = 6 - tries].  A
    cheerio object is truthy also when it selects nothing, so the loop
    ends on [tries] alone. *)
Fixpoint sibling_loop (fuel : nat) (node : selection) (parts : list jsstring)
    : list jsstring :=
  match fuel with
  | 0 => parts
  | S fuel' =>
      let txt := trim (text node) in
      let parts' := if truthy (Some txt) then parts ++ [txt] else parts in
      sibling_loop fuel' (next node) parts'
  end.

Definition blank_line : jsstring := [10%N; 10%N].

(** [article p, .content p, .report p] *)
Definition content_paragraph (e : elem) : bool :=
  tag_is (lit "p") e
  && (inside (fun a => str_eqb (fst a) (lit "article")) e
      || inside (fun a => has_class (lit "content") (snd a)) e
      || inside (fun a => has_class (lit "report") (snd a)) e).

(** [let exec_summary = ''; ... if (execHeading && execHeading.length) ...] *)
Definition exec_summary_of (doc : document) : jsstring :=
  match execHeading doc with
  | _ :: _ =>
      let parts := sibling_loop 6 (next (execHeading doc)) [] in
      slice0 4000 (join blank_line parts)
  | [] =>
      let p := trim (text (first (select doc content_paragraph))) in
      if truthy (Some p) then slice0 4000 p else []
  end.

(** [const tags = []; ...] *)
Definition tags_of (doc : document) : list jsstring :=
  let metaKeywords :=
    attr content (select doc (meta_with (lit "name") (lit "keywords"))) in
  let tags1 :=
    if truthy metaKeywords
    then map trim (split_on 44 (to_str metaKeywords))
    else [] in
  let tags2 :=
    if regex_test_i [lit "esg"] (body_text doc)
    then tags1 ++ [lit "esg"] else tags1 in
  if regex_test_i [lit "sustainability"] (body_text doc)
  then tags2 ++ [lit "sustainability"] else tags2.

(** The keywords of the link test and of the page test. *)
Definition link_keywords : list jsstring :=
  [lit "esg"; lit "sustainability"; lit "sustainability-report";
   lit "annual-report"; lit "csr"].

Definition report_keywords : list jsstring :=
  [lit "sustainability"; lit "esg"; lit "csr"; lit "environmental";
   lit "social"; lit "governance"; lit "sustainability report";
   lit "esg report"].

(** What one run of the handler does to the outside: the requests its
    transform hands back to [enqueueLinks], the records it pushes and
    the events it logs, in order. *)
Record Outcome := {
  handed_back : list Request;
  dataset : list OutputRecord;
  logged : list LogEvent
}.

Section Handler.

Context `{URLParser}.

Variable input : Input.

(** *** Link admission: [transformRequestFunction]

    [None] is the [null] that makes [enqueueLinks] drop the link; an
    error thrown by either constructor is swallowed by the [catch]. *)
Definition transformRequestFunction (request r : Request) : option Request :=
  if followInternalOnly input then
    match new_URL_host
            (to_str (js_or (req_startHost request) (Some (req_url request)))) with
    | Throw _ => Some r
    | Ok startHost =>
        match new_URL_host (req_url r) with
        | Throw _ => Some r
        | Ok candidateHost =>
            if negb (str_eqb candidateHost startHost) then None else Some r
        end
    end
  else Some r.

(** The handler's part in [enqueueLinks], a function of the crawler
    library: of the requests the library builds from the links of the
    page ([built], with URLs already resolved) and passes to the
    transform, those the transform hands back.  What the library does
    before and after (resolving, its own strategy, the request cap) is
    its own. *)
Definition handed_back_by_transform (request : Request) (built : list Request)
    : list Request :=
  flat_map (fun r => match transformRequestFunction request r with
                     | Some r' => [r']
                     | None => []
                     end) built.

(** *** PDF and report links: the [.each] callback over [a[href]] *)
Fixpoint each_anchor (loadedUrl : jsstring) (anchors : selection)
    (pdfs : list jsstring) : M (list jsstring) :=
  match anchors with
  | [] => ret pdfs
  | el :: rest =>
      let href := attr (lit "href") [el] in
      if negb (truthy href) then each_anchor loadedUrl rest pdfs
      else
        abs <- lift (new_URL_toString (to_str href) loadedUrl) ;;
        if endsWith (lit ".pdf") (toLowerCase abs)
           || regex_test_i link_keywords (to_str href)
        then each_anchor loadedUrl rest (pdfs ++ [abs])
        else each_anchor loadedUrl rest pdfs
  end.

Definition pdfs_of (doc : document) (loadedUrl : jsstring) : M (list jsstring) :=
  if detectPdfLinks input
  then each_anchor loadedUrl
         (select doc (fun e => tag_is (lit "a") e && has_attr (lit "href") (e_attrs e)))
         []
  else ret [].

(** *** Emission *)

Definition record_for (doc : document) (loadedUrl pdfUrl : jsstring)
    : OutputRecord :=
  {| company := company_of doc;
     title := title_of doc;
     date := date_of doc;
     pdf_url := pdfUrl;
     exec_summary := exec_summary_of doc;
     tags := array_from_set (tags_of doc);
     url := loadedUrl |}.

(** [for (const pdfUrl of ...) { await Dataset.pushData(...); log.info(...) }] *)
Fixpoint for_each_pdf (doc : document) (loadedUrl : jsstring)
    (urls : list jsstring) : M unit :=
  match urls with
  | [] => ret tt
  | pdfUrl :: rest =>
      pushData (record_for doc loadedUrl pdfUrl) ;;;
      log Info (lit "Saved PDF candidate") [(lit "pdf_url", pdfUrl)] ;;;
      for_each_pdf doc loadedUrl rest
  end.

Definition isLikelyReport (doc : document) : bool :=
  truthy (Some (exec_summary_of doc))
  || regex_test_i report_keywords (slice0 2000 (body_text doc)).

(** The body of the [try] block. *)
Definition extract_and_save (doc : document) (loadedUrl : jsstring) : M unit :=
  pdfs <- pdfs_of doc loadedUrl ;;
  match pdfs with
  | _ :: _ => for_each_pdf doc loadedUrl (firstn 5 (array_from_set pdfs))
  | [] =>
      if isLikelyReport doc then
        pushData (record_for doc loadedUrl []) ;;;
        log Info (lit "Saved HTML report candidate") [(lit "url", loadedUrl)]
      else
        log Debug (lit "No report-like content detected on page")
            [(lit "url", loadedUrl)]
  end.

(** [async requestHandler({ request, $, enqueueLinks, log })].  The
    awaited [enqueueLinks] call, which stands before the [try], runs in
    the crawler library; the handler's part in it is the transform. *)
Definition requestHandler_body (request : Request) (doc : document) : M unit :=
  let loadedUrl :=
    match req_loadedUrl request with
    | Some u => u
    | None => req_url request
    end in
  log Info (lit "Processing") [(lit "url", loadedUrl)] ;;;
  try_catch (extract_and_save doc loadedUrl)
    (fun msg =>
       log Warning (lit "Extraction error")
           [(lit "url", loadedUrl); (lit "message", msg)]).

Definition empty_sink : Sink := {| pushed := []; events := [] |}.

(** The candidate list of a page as the detector leaves it, or the error
    it throws. *)
Definition detect (doc : document) (loadedUrl : jsstring)
    : result (list jsstring) :=
  snd (pdfs_of doc loadedUrl empty_sink).

(** The URL the records of a page carry: [request.loadedUrl ?? request.url]. *)
Definition resolved_url (request : Request) : jsstring :=
  match req_loadedUrl request with
  | Some u => u
  | None => req_url request
  end.

(** The start host of a request: the host of its tag, of its own URL
    when the tag is absent (or empty). *)
Definition start_host (request : Request) : option jsstring :=
  match req_startHost request with
  | Some (c :: t) => url_host (c :: t)
  | _ => url_host (req_url request)
  end.

Definition requestHandler (request : Request) (doc : document)
    (found : list Request) : Outcome :=
  let s := fst (requestHandler_body request doc empty_sink) in
  {| handed_back := handed_back_by_transform request found;
     dataset := pushed s;
     logged := events s |}.

End Handler.

(** ** Notions the specification speaks in *)

(** [k] occurs in [s], characters compared with [eqc]. *)
Definition occurs (eqc : N -> N -> bool) (k s : jsstring) : Prop :=
  exists pre m post,
    s = pre ++ m ++ post /\ Forall2 (fun p c => eqc p c = true) k m.

(** Case-insensitive and exact occurrence. *)
Definition occurs_ci (k s : jsstring) : Prop := occurs eq_ci k s.
Definition occurs_exact (k s : jsstring) : Prop :=
  exists pre post, s = pre ++ k ++ post.

(** The strings other than [x], and those absent from [acc]. *)
Definition other_than (x : jsstring) : jsstring -> bool :=
  fun y => if jsstring_eq_dec y x then false else true.

Definition absent_from (acc : list jsstring) : jsstring -> bool :=
  fun y => if in_dec jsstring_eq_dec y acc then false else true.

(** The distinct values of a list, each at its first occurrence. *)
Fixpoint first_occurrences (xs : list jsstring) : list jsstring :=
  match xs with
  | [] => []
  | x :: rest => x :: filter (other_than x) (first_occurrences rest)
  end.

(** The first non-empty string of a list, the empty string if none. *)
Fixpoint first_nonempty (xs : list jsstring) : jsstring :=
  match xs with
  | [] => []
  | [] :: rest => first_nonempty rest
  | x :: _ => x
  end.

Definition is_element (n : node) : bool :=
  match n with
  | Element _ _ _ => true
  | Text _ => false
  end.

(** The sibling elements that follow an element, nearest first. *)
Definition following_elements (e : elem) : list node :=
  filter is_element (e_following e).

(** The non-empty trimmed texts of a list of nodes. *)
Definition kept_texts (ns : list node) : list jsstring :=
  filter (fun t => truthy (Some t)) (map (fun n => trim (text_of n)) ns).

(** The anchor as the handler finds it: an element whose text holds
    [Summary] or [EXECUTIVE SUMMARY], in exactly this case. *)
Definition names_summary (e : elem) : bool :=
  contains (lit "Summary") e || contains (lit "EXECUTIVE SUMMARY") e.

(** The anchor as the specification words it: the first element whose
    text matches [executive summary] or [summary], whatever the case. *)
Definition spec_anchor (doc : document) : option elem :=
  find summary_filter (all_elements doc).

(** The fallback as the specification words it: the first paragraph of
    the content regions whose trimmed text is not empty, truncated. *)
Definition spec_fallback (doc : document) : jsstring :=
  match find (fun e => truthy (Some (trim (elem_text e))))
             (select doc content_paragraph) with
  | Some e => slice0 4000 (trim (elem_text e))
  | None => []
  end.

(** The entries of the keywords meta: its content split at commas, each
    entry trimmed; none when the meta or its content is missing. *)
Definition keyword_entries (doc : document) : list jsstring :=
  match attr content (select doc (meta_with (lit "name") (lit "keywords"))) with
  | Some (c :: s) => map trim (split_on 44 (c :: s))
  | _ => []
  end.

(** The rule of the executive summary as the specification words it:
    the anchor is the first element whose text matches, whatever the
    case; the fallback is taken only when there is none, and is the
    first non-empty paragraph of the content regions. *)
Definition summary_rule_as_specified (doc : document) : Prop :=
  execHeading doc
  = match spec_anchor doc with Some h => [h] | None => [] end
  /\ (spec_anchor doc = None -> exec_summary_of doc = spec_fallback doc).

(** The tag rule as the specification words it: what is admitted
    carries the origin's tag. *)
Definition tag_copied_forward `{URLParser} (input : Input)
    (request r : Request) : Prop :=
  forall r', transformRequestFunction input request r = Some r' ->
             req_startHost r' = req_startHost request.

(** The sources of the title as the specification names them, each read
    off the document: the content of the first meta element with the
    given property or name, the trimmed text of the first level-1
    heading, the trimmed text of the title elements. *)
Definition first_meta_content (key value : jsstring) (doc : document) : jsval :=
  match find (meta_with key value) (all_elements doc) with
  | Some e => lookup content (e_attrs e)
  | None => None
  end.

Definition og_title (doc : document) : jsval :=
  first_meta_content (lit "property") (lit "og:title") doc.

Definition twitter_title (doc : document) : jsval :=
  first_meta_content (lit "name") (lit "twitter:title") doc.

Definition h1_text (doc : document) : jsstring :=
  match find (tag_is (lit "h1")) (all_elements doc) with
  | Some e => trim (elem_text e)
  | None => []
  end.

Definition title_text (doc : document) : jsstring :=
  trim (concat (map elem_text (filter (tag_is (lit "title")) (all_elements doc)))).

(** [t] is [g] with some of its line feeds replaced by other text:
    how the text cheerio reads stands to the text the selector engine
    reads. *)
Inductive fills : jsstring -> jsstring -> Prop :=
| fills_nil : fills [] []
| fills_same (c : N) (g t : jsstring) : fills g t -> fills (c :: g) (c :: t)
| fills_break (b g t : jsstring) : fills g t -> fills (10%N :: g) (b ++ t).

(** Every [br] element of the document is empty, as the HTML parser
    makes it; a document parsed as XML need not be so. *)
Fixpoint void_breaks (n : node) : bool :=
  match n with
  | Text _ => true
  | Element nm _ ch =>
      (negb (str_eqb nm (lit "br")) || match ch with [] => true | _ => false end)
      && forallb void_breaks ch
  end.

(** The sources of the company name, in the order of the cascade. *)
Definition site_name (doc : document) : jsval :=
  attr content (select doc (meta_with (lit "property") (lit "og:site_name"))).
Definition application_name (doc : document) : jsval :=
  attr content (select doc (meta_with (lit "name") (lit "application-name"))).
Definition author_meta (doc : document) : jsval :=
  attr content (select doc (meta_with (lit "name") (lit "author"))).
Definition header_heading (doc : document) : jsstring :=
  trim (text (first (select doc
    (fun e => inside (fun a => str_eqb (fst a) (lit "header")) e
              && (tag_is (lit "h1") e || tag_is (lit "h2") e))))).

(** The sources of the date that the page declares, in the order of the
    cascade, and the first of them that is not empty. *)
Definition published_time (doc : document) : jsval :=
  attr content
    (select doc (meta_with (lit "name") (lit "article:published_time"))).
Definition time_datetime (doc : document) : jsval :=
  attr (lit "datetime") (first (select doc (tag_is (lit "time")))).
Definition time_text (doc : document) : jsstring :=
  trim (text (first (select doc (tag_is (lit "time"))))).

Definition declared_date (doc : document) : jsstring :=
  first_nonempty
    [to_str (published_time doc); to_str (time_datetime doc); time_text doc].

(** A path of the crawl: each request was found on the page of the one
    before it, the first on the page of [origin], and let through. *)
Fixpoint admitted_chain `{URLParser} (input : Input) (origin : Request)
    (path : list Request) : Prop :=
  match path with
  | [] => True
  | r :: rest =>
      transformRequestFunction input origin r = Some r
      /\ admitted_chain input r rest
  end.

(** A request as the crawler library builds it from a link: no tag, and
    a URL that parses. *)
Definition plain_link `{URLParser} (r : Request) : Prop :=
  truthy (req_startHost r) = false /\ url_host (req_url r) <> None.

(** The anchors the detector visits: [a[href]]. *)
Definition anchors (doc : document) : selection :=
  select doc (fun e => tag_is (lit "a") e && has_attr (lit "href") (e_attrs e)).

(** The test of the detector on a raw [href] and its resolution. *)
Definition link_qualifies (href abs : jsstring) : bool :=
  endsWith (lit ".pdf") (toLowerCase abs) || regex_test_i link_keywords href.

(** Whether the [href] of an anchor, when it is not empty, resolves. *)
Definition anchor_resolves `{URLParser} (lu : jsstring) (e : elem) : bool :=
  match lookup (lit "href") (e_attrs e) with
  | Some (c :: h) =>
      match url_resolve (c :: h) lu with
      | Some _ => true
      | None => false
      end
  | _ => true
  end.

(** What one anchor adds to the candidates. *)
Definition anchor_candidate `{URLParser} (lu : jsstring) (e : elem)
    : list jsstring :=
  match lookup (lit "href") (e_attrs e) with
  | Some (c :: h) =>
      match url_resolve (c :: h) lu with
      | Some abs => if link_qualifies (c :: h) abs then [abs] else []
      | None => []
      end
  | _ => []
  end.

(** A year as the date scan reads it: 19 or 20 and two digits. *)
Definition is_year (y : jsstring) : Prop :=
  exists d1 d2,
    (y = [50; 48; d1; d2]%N \/ y = [49; 57; d1; d2]%N)
    /\ is_digit d1 = true /\ is_digit d2 = true.

(** [s] does not end, or does not begin, with a word character. *)
Definition ends_open (s : jsstring) : Prop :=
  match rev s with
  | [] => True
  | c :: _ => is_word c = false
  end.

Definition begins_open (s : jsstring) : Prop :=
  match s with
  | [] => True
  | c :: _ => is_word c = false
  end.

(** A year stands alone in [s]: between characters that are no word
    characters, or at an end of [s]. *)
Definition year_stands_in (y s : jsstring) : Prop :=
  exists pre post,
    s = pre ++ y ++ post /\ is_year y /\ ends_open pre /\ begins_open post.

(** [s] neither begins nor ends with white space. *)
Definition trimmed (s : jsstring) : Prop :=
  match s with
  | [] => True
  | c :: _ => is_js_space c = false
  end
  /\ match rev s with
     | [] => True
     | c :: _ => is_js_space c = false
     end.

(** ** A URL parser for plain http(s) URLs

    [SimpleURL] follows the URL constructor only on the plain forms the
    example pages use: absolute [http://] and [https://] URLs with a
    lower-case scheme, a host name, an optional port and a path of
    printable ASCII characters without spaces, user information, dot
    segments or empty segments, and path references ([/x], [x]) of that
    kind against such a base.  Outside these forms (scheme-relative
    references, other schemes, characters that the constructor
    encodes) it is not the URL constructor.  It serves to evaluate the
    handler on the example pages below; the theorems hold for every
    [URLParser]. *)

Fixpoint strip_prefix (pre s : jsstring) : option jsstring :=
  match pre, s with
  | [], _ => Some s
  | p :: pre', c :: s' => if N.eqb p c then strip_prefix pre' s' else None
  | _ :: _, [] => None
  end.

(** The authority, up to the first [/], [?] or [#], and what follows. *)
Fixpoint span_host (s : jsstring) : jsstring * jsstring :=
  match s with
  | [] => ([], [])
  | c :: s' =>
      if ((c =? 47) || (c =? 63) || (c =? 35))%N then ([], s)
      else let (h, r) := span_host s' in (c :: h, r)
  end.

Definition scheme_rest (u : jsstring) : option (jsstring * jsstring) :=
  match strip_prefix (lit "https://") u with
  | Some r => Some (lit "https://", r)
  | None =>
      match strip_prefix (lit "http://") u with
      | Some r => Some (lit "http://", r)
      | None => None
      end
  end.

(** The host without the default port of the scheme. *)
Definition drop_default_port (sch h : jsstring) : jsstring :=
  let p := if str_eqb sch (lit "https://") then lit ":443" else lit ":80" in
  if endsWith p h then firstn (length h - length p) h else h.

Definition simple_host (u : jsstring) : option jsstring :=
  match scheme_rest u with
  | Some (sch, r) =>
      match fst (span_host r) with
      | [] => None
      | h => Some (toLowerCase (drop_default_port sch h))
      end
  | None => None
  end.

(** The path up to and including its last [/]. *)
Fixpoint drop_last_segment (rev_path : jsstring) : jsstring :=
  match rev_path with
  | [] => []
  | c :: rest => if (c =? 47)%N then rev_path else drop_last_segment rest
  end.

Definition directory (path : jsstring) : jsstring :=
  match rev (drop_last_segment (rev path)) with
  | [] => lit "/"
  | d => d
  end.

Definition simple_resolve (href base : jsstring) : option jsstring :=
  match scheme_rest href with
  | Some (sch, r) =>
      let (h, path) := span_host r in
      match h with
      | [] => None
      | _ =>
          Some (sch ++ toLowerCase (drop_default_port sch h)
                ++ match path with
                   | [] => lit "/"
                   | c :: _ => if (c =? 47)%N then path else lit "/" ++ path
                   end)
      end
  | None =>
      match scheme_rest base with
      | Some (sch, r) =>
          let (h, path) := span_host r in
          match h, href with
          | [], _ => None
          | _, c :: _ =>
              if (c =? 47)%N then Some (sch ++ toLowerCase (drop_default_port sch h) ++ href)
              else Some (sch ++ toLowerCase (drop_default_port sch h) ++ directory path ++ href)
          | _, [] =>
              Some (sch ++ toLowerCase (drop_default_port sch h)
                    ++ match path with [] => lit "/" | _ => path end)
          end
      | None => None
      end
  end.

#[export] Instance SimpleURL : URLParser :=
  {| url_host := simple_host; url_resolve := simple_resolve |}.

(** ** Example pages *)

Open Scope string_scope.

Definition txt (s : String.string) : node := Text (lit s).

Definition el (nm : String.string) (a : list (String.string * String.string))
    (ch : list node) : node :=
  Element (lit nm) (map (fun kv => (lit (fst kv), lit (snd kv))) a) ch.

Definition html_page (head body : list node) : document :=
  [el "html" [] [el "head" [] head; el "body" [] body]].

Definition link (href : String.string) : node :=
  el "a" [("href", href)] [txt "link"].

Definition example_input : Input :=
  {| maxRequestsPerCrawl := 200; detectPdfLinks := true;
     followInternalOnly := true |}.

Definition example_request : Request :=
  {| req_url := lit "https://corp.example/reports/";
     req_loadedUrl := Some (lit "https://corp.example/reports/");
     req_startHost := None |}.

(** An open-graph title and a level-1 heading. *)
Definition page_titles : document :=
  html_page
    [el "meta" [("property", "og:title"); ("content", "OG Title")] [];
     el "title" [] [txt "Doc Title"]]
    [el "h1" [] [txt "H1 Title"]].

(** No usable open-graph title (its content is empty): a twitter
    title, a heading and a title element. *)
Definition page_twitter_title : document :=
  html_page
    [el "meta" [("property", "og:title"); ("content", "")] [];
     el "meta" [("name", "twitter:title"); ("content", "Twitter Title")] [];
     el "title" [] [txt "Doc Title"]]
    [el "h1" [] [txt "H1 Title"]].

(** No title meta: two headings and a title element. *)
Definition page_h1_title : document :=
  html_page
    [el "title" [] [txt "Doc Title"]]
    [el "h1" [] [txt "  H1 Title "]; el "h1" [] [txt "Second"]].

(** A blank heading and a title element. *)
Definition page_title_only : document :=
  html_page
    [el "title" [] [txt " Doc Title "]]
    [el "h1" [] [txt "   "]].

(** Keywords in three spellings, and both words in the body. *)
Definition page_tags : document :=
  html_page
    [el "meta" [("name", "keywords"); ("content", "ESG, esg, Sustainability")] []]
    [el "p" [] [txt "Our ESG record and our sustainability goals."]].

(** Eight distinct PDF links, the first one repeated. *)
Definition page_eight_pdfs : document :=
  html_page []
    [link "/r1.pdf"; link "/r2.pdf"; link "/r1.pdf"; link "/r3.pdf";
     link "/r4.pdf"; link "/r5.pdf"; link "/r6.pdf"; link "/r7.pdf";
     link "/r8.pdf"].

(** Nothing that looks like a report. *)
Definition page_plain : document :=
  html_page [el "title" [] [txt "Contact"]]
    [el "p" [] [txt "Write to us."]].

(** No heading and no paragraph region, but a keyword in the body. *)
Definition page_keyword : document :=
  html_page [] [el "div" [] [txt "Corporate Governance"]].

(** A heading in lower case, then a content region. *)
Definition page_lowercase_heading : document :=
  html_page []
    [el "h2" [] [txt "executive summary"];
     el "p" [] [txt "The year in brief."];
     el "article" [] [el "p" [] [txt "Fallback paragraph"]]].

(** A content region whose first paragraph is blank. *)
Definition page_blank_paragraph : document :=
  html_page []
    [el "article" [] [el "p" [] [txt "  "]; el "p" [] [txt "Real text"]]].

(** A valid PDF link and a link the URL constructor rejects. *)
Definition page_bad_link : document :=
  html_page []
    [link "/report.pdf"; link "http://"].

(** A document without a root element: the heading is the first element
    that holds the phrase, and paragraphs follow it. *)
Definition long_paragraph : node :=
  Element (lit "p") [] [Text (repeat 120%N 2500)].

Definition page_heading_then_paragraphs : document :=
  [el "h2" [] [txt "Executive Summary"];
   txt " ";
   long_paragraph;
   el "p" [] [txt "   "];
   long_paragraph].

(** The same heading inside a full page. *)
Definition page_heading_in_html : document :=
  html_page []
    [el "h2" [] [txt "Executive Summary"];
     el "p" [] [txt "The year in brief."]].

(** A full page: the heading, then six paragraphs of 700 characters. *)
Definition medium_paragraph : node :=
  Element (lit "p") [] [Text (repeat 120%N 700)].

Definition page_heading_six_paragraphs : document :=
  html_page []
    [el "h2" [] [txt "Executive Summary"];
     medium_paragraph; medium_paragraph; medium_paragraph;
     medium_paragraph; medium_paragraph; medium_paragraph].

(** Its heading as a selection holds it. *)
Definition heading_in_page : elem :=
  {| e_name := lit "h2"; e_attrs := [];
     e_children := [txt "Executive Summary"];
     e_ancestors := [(lit "body", []); (lit "html", [])];
     e_following :=
       [medium_paragraph; medium_paragraph; medium_paragraph;
        medium_paragraph; medium_paragraph; medium_paragraph] |}.

(** The heading of [page_lowercase_heading] as a selection holds it. *)
Definition lowercase_heading : elem :=
  {| e_name := lit "h2"; e_attrs := [];
     e_children := [txt "executive summary"];
     e_ancestors := [(lit "body", []); (lit "html", [])];
     e_following :=
       [el "p" [] [txt "The year in brief."];
        el "article" [] [el "p" [] [txt "Fallback paragraph"]]] |}.

(** The heading of [page_heading_then_paragraphs] as a selection holds it. *)
Definition heading_elem : elem :=
  {| e_name := lit "h2"; e_attrs := [];
     e_children := [txt "Executive Summary"];
     e_ancestors := [];
     e_following :=
       [txt " "; long_paragraph; el "p" [] [txt "   "]; long_paragraph] |}.

(** The second anchor of [page_bad_link]. *)
Definition bad_anchor : elem :=
  {| e_name := lit "a"; e_attrs := [(lit "href", lit "http://")];
     e_children := [txt "link"];
     e_ancestors := [(lit "body", []); (lit "html", [])];
     e_following := [] |}.

(** A seed that carries a tag, and links found on its page. *)
Definition tagged_request : Request :=
  {| req_url := lit "https://corp.example/";
     req_loadedUrl := Some (lit "https://corp.example/");
     req_startHost := Some (lit "https://corp.example/") |}.

Definition found_link (u : String.string) : Request :=
  {| req_url := lit u; req_loadedUrl := None; req_startHost := None |}.

Arguments found_link u%_string.

(** The candidates [page_eight_pdfs] yields at [example_request]. *)
Definition eight_pdfs_found : list jsstring :=
  map (fun n => lit "https://corp.example/r" ++ lit n ++ lit ".pdf")
    ["1"; "2"; "1"; "3"; "4"; "5"; "6"; "7"; "8"].

(** An input with the host restriction and the PDF detection off. *)
Definition open_input : Input :=
  {| maxRequestsPerCrawl := 200; detectPdfLinks := false;
     followInternalOnly := false |}.

(** A seed whose tag is a bare host name, which is no URL. *)
Definition bare_tag_request : Request :=
  {| req_url := lit "https://corp.example/";
     req_loadedUrl := Some (lit "https://corp.example/");
     req_startHost := Some (lit "corp.example") |}.

(** A path of three links on the site. *)
Definition site_path : list Request :=
  [found_link "https://corp.example/about";
   found_link "https://corp.example/reports/";
   found_link "https://corp.example/reports/2023"].

(** A header with the company name, a time element and a year in the
    text. *)
Definition page_header_and_time : document :=
  html_page
    [el "meta" [("name", "author"); ("content", "")] []]
    [el "header" [] [el "div" [] [el "h2" [] [txt " ACME Corp "]]];
     el "time" [("datetime", "2024-03-01")] [txt "1 March 2024"];
     el "p" [] [txt "Report for 2023."]].

(** No date anywhere but a year in the text. *)
Definition page_year_in_text : document :=
  html_page []
    [el "p" [] [txt "Ref 120231 and FY2022, but published in 2023."]].

Close Scope string_scope.

(** * Properties *)

(** ** Strings *)

Lemma str_eqb_eq (a b : jsstring) : str_eqb a b = true <-> a = b.
Proof.
  revert b; induction a as [|x a IH]; intros [|y b]; simpl;
    try (split; [discriminate | discriminate]); try tauto.
  rewrite andb_true_iff, N.eqb_eq, IH.
  split; [intros [-> ->]; reflexivity | intros E; inversion E; auto].
Qed.

Lemma str_eqb_refl (a : jsstring) : str_eqb a a = true.
Proof. apply str_eqb_eq; reflexivity. Qed.

Lemma truthy_nonempty (t : jsstring) : truthy (Some t) = true <-> t <> [].
Proof. destruct t; simpl; split; congruence. Qed.

Lemma truthy_empty (t : jsstring) : truthy (Some t) = false <-> t = [].
Proof. destruct t; simpl; split; congruence. Qed.

Lemma starts_with_spec (eqc : N -> N -> bool) (pat s : jsstring) :
  starts_with eqc pat s = true <->
  exists m post, s = m ++ post /\ Forall2 (fun p c => eqc p c = true) pat m.
Proof.
  revert s; induction pat as [|p pat IH]; intros s; simpl.
  - split; [intros _; exists [], s; split; [reflexivity | constructor] | reflexivity].
  - destruct s as [|c s].
    + split; [discriminate |].
      intros (m & post & E & F). inversion F; subst. discriminate.
    + rewrite andb_true_iff, IH. split.
      * intros (Hc & m & post & -> & F).
        exists (c :: m), post. split; [reflexivity | constructor; assumption].
      * intros (m & post & E & F). inversion F as [|? c' ? m' Hc F']; subst.
        simpl in E. inversion E; subst.
        split; [assumption | exists m', post; split; auto].
Qed.

Lemma search_spec (eqc : N -> N -> bool) (pat s : jsstring) :
  search eqc pat s = true <-> occurs eqc pat s.
Proof.
  unfold occurs. induction s as [|c s IH].
  - simpl. rewrite orb_false_r, starts_with_spec. split.
    + intros (m & post & E & F). exists [], m, post. auto.
    + intros (pre & m & post & E & F).
      destruct pre; [| discriminate]. exists m, post. auto.
  - cbn [search]. rewrite orb_true_iff, starts_with_spec, IH. split.
    + intros [(m & post & E & F) | (pre & m & post & E & F)].
      * exists [], m, post. auto.
      * exists (c :: pre), m, post. rewrite E. auto.
    + intros (pre & m & post & E & F). destruct pre as [|c' pre].
      * left. exists m, post. auto.
      * right. simpl in E. inversion E; subst. exists pre, m, post. auto.
Qed.

Lemma existsb_orb (A : Type) (f g : A -> bool) (l : list A) :
  existsb (fun a => f a || g a) l = existsb f l || existsb g l.
Proof.
  induction l as [|a l IH]; [reflexivity |].
  simpl. rewrite IH.
  destruct (f a), (g a), (existsb f l), (existsb g l); reflexivity.
Qed.

(** The regular-expression test finds what the alternatives say: one of
    them occurs somewhere in the input. *)
Lemma regex_test_spec (eqc : N -> N -> bool) (alts : list jsstring)
    (s : jsstring) :
  regex_test eqc alts s = true <-> exists k, In k alts /\ occurs eqc k s.
Proof.
  assert (R : regex_test eqc alts s = existsb (fun a => search eqc a s) alts).
  { induction s as [|c s IH].
    - simpl. rewrite orb_false_r.
      induction alts as [|a alts IHa]; [reflexivity |].
      simpl. rewrite IHa, orb_false_r. reflexivity.
    - cbn [regex_test]. rewrite IH, <- existsb_orb. reflexivity. }
  rewrite R, existsb_exists. split.
  - intros (k & Hin & Hs). exists k. split; [assumption | apply search_spec; assumption].
  - intros (k & Hin & Ho). exists k. split; [assumption | apply search_spec; assumption].
Qed.

Lemma Forall2_eqb (k m : jsstring) :
  Forall2 (fun p c => N.eqb p c = true) k m <-> k = m.
Proof.
  split.
  - induction 1 as [|p c k m E _ IH]; [reflexivity |].
    apply N.eqb_eq in E. subst. reflexivity.
  - intros <-. induction k; constructor; [apply N.eqb_refl | assumption].
Qed.

Lemma includes_spec (pat s : jsstring) :
  includes pat s = true <-> occurs_exact pat s.
Proof.
  unfold includes, occurs_exact. rewrite search_spec. unfold occurs. split.
  - intros (pre & m & post & E & F). apply Forall2_eqb in F. subst m.
    exists pre, post. assumption.
  - intros (pre & post & E). exists pre, pat, post.
    split; [assumption | apply Forall2_eqb; reflexivity].
Qed.

(** ** [Array.from(new Set(xs))] keeps first occurrences *)

Lemma filter_twice (A : Type) (f g : A -> bool) (l : list A) :
  filter f (filter g l) = filter (fun x => g x && f x) l.
Proof.
  induction l as [|a l IH]; [reflexivity |].
  simpl. destruct (g a); simpl; [destruct (f a) |]; rewrite IH; reflexivity.
Qed.

Lemma filter_same (A : Type) (f g : A -> bool) (l : list A) :
  (forall x, In x l -> f x = g x) -> filter f l = filter g l.
Proof.
  induction l as [|a l IH]; intros E; [reflexivity |].
  simpl. rewrite (E a (or_introl eq_refl)), IH; [reflexivity |].
  intros x Hx. apply E. right. assumption.
Qed.

Lemma filter_all (A : Type) (f : A -> bool) (l : list A) :
  (forall x, In x l -> f x = true) -> filter f l = l.
Proof.
  induction l as [|a l IH]; intros E; [reflexivity |].
  simpl. rewrite (E a (or_introl eq_refl)), IH; [reflexivity |].
  intros x Hx. apply E. right. assumption.
Qed.

Lemma other_than_true (x y : jsstring) : other_than x y = true <-> y <> x.
Proof. unfold other_than. destruct (jsstring_eq_dec y x); split; congruence. Qed.

Lemma in_first_occurrences (y : jsstring) (l : list jsstring) :
  In y (first_occurrences l) <-> In y l.
Proof.
  induction l as [|x l IH]; [reflexivity |].
  cbn [first_occurrences]. split.
  - intros [E | Hin]; [left; assumption |].
    apply filter_In in Hin. right. apply IH, Hin.
  - intros [E | Hin]; [left; assumption |].
    destruct (jsstring_eq_dec y x) as [E | NE]; [left; auto |].
    right. apply filter_In. split; [apply IH, Hin | apply other_than_true, NE].
Qed.

Lemma NoDup_first_occurrences (l : list jsstring) : NoDup (first_occurrences l).
Proof.
  induction l as [|x l IH]; [constructor |].
  cbn [first_occurrences]. constructor.
  - intros Hin. apply filter_In in Hin. destruct Hin as [_ Hne].
    apply other_than_true in Hne. congruence.
  - apply NoDup_filter, IH.
Qed.

Lemma filter_first_occurrences (p : jsstring -> bool) (l : list jsstring) :
  filter p (first_occurrences l) = first_occurrences (filter p l).
Proof.
  induction l as [|x l IH]; [reflexivity |].
  cbn [first_occurrences filter].
  rewrite filter_twice.
  rewrite (filter_same _ (fun y => p y && other_than x y)) by (intros; apply andb_comm).
  rewrite <- filter_twice, IH.
  destruct (p x) eqn:Px; [reflexivity |].
  apply filter_all. intros y Hy.
  apply in_first_occurrences, filter_In in Hy. destruct Hy as [_ Py].
  apply other_than_true. congruence.
Qed.

Lemma fold_set_add (xs acc : list jsstring) :
  fold_left set_add xs acc
  = acc ++ first_occurrences (filter (absent_from acc) xs).
Proof.
  revert acc; induction xs as [|x xs IH]; intros acc.
  - simpl. rewrite app_nil_r. reflexivity.
  - cbn [fold_left filter]. rewrite IH. unfold set_add, absent_from at 2.
    destruct (in_dec jsstring_eq_dec x acc) as [Hin | Hout]; [reflexivity |].
    cbn [first_occurrences].
    rewrite <- app_assoc. cbn [app]. do 2 f_equal.
    rewrite filter_first_occurrences, filter_twice. f_equal.
    apply filter_same. intros y _. unfold absent_from, other_than.
    destruct (in_dec jsstring_eq_dec y (acc ++ [x])) as [I | O],
             (in_dec jsstring_eq_dec y acc) as [I' | O'],
             (jsstring_eq_dec y x) as [E | NE]; try reflexivity; exfalso.
    + apply in_app_or in I. destruct I as [I | [I | []]]; congruence.
    + apply O, in_or_app. left. assumption.
    + apply O, in_or_app. left. assumption.
    + apply O, in_or_app. right. left. congruence.
Qed.

(** The array made from the set lists the distinct values in the order
    of their first occurrence. *)
Lemma array_from_set_first_occurrences (xs : list jsstring) :
  array_from_set xs = first_occurrences xs.
Proof.
  unfold array_from_set. rewrite fold_set_add. cbn [app]. f_equal.
  apply filter_all. intros y _. reflexivity.
Qed.

Lemma array_from_set_In (y : jsstring) (xs : list jsstring) :
  In y (array_from_set xs) <-> In y xs.
Proof. rewrite array_from_set_first_occurrences. apply in_first_occurrences. Qed.

Lemma array_from_set_NoDup (xs : list jsstring) : NoDup (array_from_set xs).
Proof. rewrite array_from_set_first_occurrences. apply NoDup_first_occurrences. Qed.

Lemma array_from_set_nil (xs : list jsstring) :
  array_from_set xs = [] <-> xs = [].
Proof.
  rewrite array_from_set_first_occurrences.
  destruct xs; simpl; split; congruence.
Qed.

(** ** Link admission *)

Section Admission.

Context `{URLParser}.

Variable input : Input.

Lemma start_host_source (request : Request) :
  url_host (to_str (js_or (req_startHost request) (Some (req_url request))))
  = start_host request.
Proof.
  unfold start_host, js_or. destruct (req_startHost request) as [[|c t]|]; reflexivity.
Qed.

(** The filter, read off the source: off, it admits; on, it refuses
    exactly when both hosts are known and differ. *)
Lemma transformRequestFunction_cases (request r : Request) :
  transformRequestFunction input request r
  = if followInternalOnly input then
      match start_host request, url_host (req_url r) with
      | Some sh, Some ch => if str_eqb ch sh then Some r else None
      | _, _ => Some r
      end
    else Some r.
Proof.
  unfold transformRequestFunction, new_URL_host.
  rewrite start_host_source.
  destruct (followInternalOnly input); [| reflexivity].
  destruct (start_host request) as [sh|]; [| reflexivity].
  destruct (url_host (req_url r)) as [ch|]; [| reflexivity].
  destruct (str_eqb ch sh); reflexivity.
Qed.

(** An admitted request is the candidate itself. *)
Lemma admitted_unchanged (request r r' : Request) :
  transformRequestFunction input request r = Some r' -> r' = r.
Proof.
  rewrite transformRequestFunction_cases.
  destruct (followInternalOnly input); [| congruence].
  destruct (start_host request); [| congruence].
  destruct (url_host (req_url r)); [| congruence].
  destruct (str_eqb _ _); congruence.
Qed.

(** With the restriction on, an admitted candidate whose URL parses has
    the host of the origin's start host. *)
Lemma admitted_same_host (request r r' : Request) (sh ch : jsstring) :
  followInternalOnly input = true ->
  start_host request = Some sh ->
  url_host (req_url r) = Some ch ->
  transformRequestFunction input request r = Some r' ->
  ch = sh.
Proof.
  intros On Hs Hc. rewrite transformRequestFunction_cases, On, Hs, Hc.
  destruct (str_eqb ch sh) eqn:E; [| discriminate].
  intros _. apply str_eqb_eq, E.
Qed.

(** A request without a tag takes its start host from its own URL. *)
Lemma start_host_untagged (r : Request) :
  truthy (req_startHost r) = false ->
  start_host r = url_host (req_url r).
Proof.
  unfold start_host. destruct (req_startHost r) as [[|c t]|]; simpl; congruence.
Qed.

(** When the start host cannot be read (the tag, or else the origin's
    URL, does not parse), every candidate is admitted. *)
Lemma unreadable_start_host_admits (request r : Request) :
  start_host request = None ->
  transformRequestFunction input request r = Some r.
Proof.
  intros Hs. rewrite transformRequestFunction_cases, Hs.
  destruct (followInternalOnly input); reflexivity.
Qed.

(** C3: with [followInternalOnly] on, a candidate whose URL parses is
    admitted if and only if its host equals the start host: the host of
    the origin request's [startHost] tag, or of the origin request's own
    URL when it carries no tag. A candidate whose host differs is
    refused. *)
Theorem C3_scope_filter (request r : Request) (sh ch : jsstring) :
  followInternalOnly input = true ->
  match req_startHost request with
  | Some (c :: t) => url_host (c :: t)
  | _ => url_host (req_url request)
  end = Some sh ->
  url_host (req_url r) = Some ch ->
  (transformRequestFunction input request r = Some r <-> ch = sh)
  /\ (ch <> sh -> transformRequestFunction input request r = None).
Proof.
  intros On Hs Hc. fold (start_host request) in Hs.
  rewrite transformRequestFunction_cases, On, Hs, Hc.
  destruct (str_eqb ch sh) eqn:E.
  - apply str_eqb_eq in E. split; [tauto | congruence].
  - assert (ch <> sh) by (intros E'; apply str_eqb_eq in E'; congruence).
    split; [split; [discriminate | tauto] | reflexivity].
Qed.

(** C4, as the code has it: an admitted request is the candidate itself,
    unchanged, so it carries its own [startHost] tag and none is copied
    from the origin request. With [followInternalOnly] on and both URLs
    parsing, an admitted candidate has the origin's start host as its
    host, hence, when it carries no tag, as its own start host: the
    scope passes down the crawl tree through the hosts of the admitted
    URLs. *)
Theorem C4_admitted_request (request r r' : Request) :
  transformRequestFunction input request r = Some r' ->
  r' = r
  /\ req_startHost r' = req_startHost r
  /\ (forall sh ch,
        followInternalOnly input = true ->
        start_host request = Some sh ->
        url_host (req_url r) = Some ch ->
        ch = sh
        /\ (truthy (req_startHost r) = false -> start_host r' = Some sh)).
Proof.
  intros A. pose proof (admitted_unchanged _ _ A) as E. subst r'.
  split; [reflexivity | split; [reflexivity |]].
  intros sh ch On Hs Hc.
  assert (ch = sh) by (eapply admitted_same_host; eauto). subst ch.
  split; [reflexivity |].
  intros U. rewrite start_host_untagged; assumption.
Qed.

(** C5: a candidate whose URL does not parse is never refused, with or
    without the host restriction: it is admitted as it is. *)
Theorem C5_malformed_candidate_admitted (request r : Request) :
  url_host (req_url r) = None ->
  transformRequestFunction input request r = Some r.
Proof.
  intros Hc. rewrite transformRequestFunction_cases, Hc.
  destruct (followInternalOnly input); [| reflexivity].
  destruct (start_host request); reflexivity.
Qed.

End Admission.

(** ** The handler run *)

Section Run.

Context `{URLParser}.

Variable input : Input.

(** The detector reads the sink and leaves it as it is. *)
Lemma each_anchor_sink (lu : jsstring) (anchors : selection)
    (pdfs : list jsstring) (s : Sink) :
  each_anchor lu anchors pdfs s
  = (s, snd (each_anchor lu anchors pdfs empty_sink)).
Proof.
  revert pdfs; induction anchors as [|el_ rest IH]; intros pdfs; [reflexivity |].
  cbn [each_anchor].
  destruct (negb (truthy (attr (lit "href") [el_]))); [apply IH |].
  unfold bind, lift.
  destruct (new_URL_toString (to_str (attr (lit "href") [el_])) lu) as [a | e];
    [| reflexivity].
  destruct (endsWith (lit ".pdf") (toLowerCase a)
            || regex_test_i link_keywords (to_str (attr (lit "href") [el_])));
    apply IH.
Qed.

Lemma pdfs_of_sink (doc : document) (lu : jsstring) (s : Sink) :
  pdfs_of input doc lu s = (s, detect input doc lu).
Proof.
  unfold detect, pdfs_of. destruct (detectPdfLinks input); [| reflexivity].
  apply each_anchor_sink.
Qed.

(** The emission loop pushes one record and logs one event per URL. *)
Lemma for_each_pdf_run (doc : document) (lu : jsstring)
    (urls : list jsstring) (s : Sink) :
  for_each_pdf doc lu urls s
  = ({| pushed := pushed s ++ map (record_for doc lu) urls;
        events := events s
          ++ map (fun u => {| level := Info;
                              message := lit "Saved PDF candidate";
                              data := [(lit "pdf_url", u)] |}) urls |},
     Ok tt).
Proof.
  revert s; induction urls as [|u urls IH]; intros s.
  - simpl. rewrite !app_nil_r. destruct s; reflexivity.
  - cbn [for_each_pdf]. unfold bind at 1. unfold pushData.
    unfold bind at 1. unfold log at 1. rewrite IH. cbn [pushed events map].
    rewrite <- !app_assoc. reflexivity.
Qed.

(** What a run of the handler leaves in the sink, by the outcome of the
    detector. The handler itself never throws. *)
Lemma requestHandler_body_run (request : Request) (doc : document) :
  let lu := resolved_url request in
  let processing :=
    {| level := Info; message := lit "Processing"; data := [(lit "url", lu)] |} in
  requestHandler_body input request doc empty_sink
  = (match detect input doc lu with
     | Throw msg =>
         {| pushed := [];
            events := [processing;
                       {| level := Warning; message := lit "Extraction error";
                          data := [(lit "url", lu); (lit "message", msg)] |}] |}
     | Ok (p :: ps) =>
         {| pushed := map (record_for doc lu)
                        (firstn 5 (array_from_set (p :: ps)));
            events := processing
              :: map (fun u => {| level := Info;
                                  message := lit "Saved PDF candidate";
                                  data := [(lit "pdf_url", u)] |})
                   (firstn 5 (array_from_set (p :: ps))) |}
     | Ok [] =>
         if isLikelyReport doc then
           {| pushed := [record_for doc lu []];
              events := [processing;
                         {| level := Info;
                            message := lit "Saved HTML report candidate";
                            data := [(lit "url", lu)] |}] |}
         else
           {| pushed := [];
              events := [processing;
                         {| level := Debug;
                            message := lit "No report-like content detected on page";
                            data := [(lit "url", lu)] |}] |}
     end, Ok tt).
Proof.
  intros lu processing.
  unfold requestHandler_body. fold (resolved_url request). fold lu.
  unfold bind at 1. unfold log at 1. cbn [empty_sink pushed events app].
  unfold try_catch, extract_and_save. unfold bind at 1.
  rewrite pdfs_of_sink.
  destruct (detect input doc lu) as [[|p ps] | msg].
  - destruct (isLikelyReport doc); reflexivity.
  - rewrite for_each_pdf_run. reflexivity.
  - reflexivity.
Qed.

Lemma requestHandler_dataset (request : Request) (doc : document)
    (found : list Request) :
  dataset (requestHandler input request doc found)
  = pushed (fst (requestHandler_body input request doc empty_sink)).
Proof. reflexivity. Qed.

Lemma NoDup_firstn (A : Type) (n : nat) (l : list A) :
  NoDup l -> NoDup (firstn n l).
Proof.
  intros N. rewrite <- (firstn_skipn n l) in N.
  apply NoDup_app_remove_r in N. exact N.
Qed.

Lemma isLikelyReport_spec (doc : document) :
  isLikelyReport doc = true <->
  exec_summary_of doc <> []
  \/ exists k, In k report_keywords /\ occurs_ci k (firstn 2000 (body_text doc)).
Proof.
  unfold isLikelyReport, regex_test_i, occurs_ci, slice0.
  rewrite orb_true_iff, truthy_nonempty, regex_test_spec. reflexivity.
Qed.

(** C1: when the detector returns and the deduplicated candidate set is
    not empty, the page gives exactly min(5, size of the set) records:
    one for each of the first five distinct candidates in order of
    discovery, with that candidate as [pdf_url], the page's resolved
    URL as [url] and the same extracted metadata in every record. *)
Theorem C1_pdf_records (request : Request) (doc : document)
    (found : list Request) (pdfs : list jsstring) :
  detect input doc (resolved_url request) = Ok pdfs ->
  array_from_set pdfs <> [] ->
  let out := dataset (requestHandler input request doc found) in
  let cands := array_from_set pdfs in
  length out = Nat.min 5 (length cands)
  /\ map pdf_url out = firstn 5 cands
  /\ cands = first_occurrences pdfs
  /\ NoDup (map pdf_url out)
  /\ out = map (record_for doc (resolved_url request)) (firstn 5 cands)
  /\ (forall r, In r out ->
        url r = resolved_url request
        /\ company r = company_of doc /\ title r = title_of doc
        /\ date r = date_of doc /\ exec_summary r = exec_summary_of doc
        /\ tags r = array_from_set (tags_of doc)).
Proof.
  intros D NE out cands.
  assert (E : out = map (record_for doc (resolved_url request)) (firstn 5 cands)).
  { unfold out. rewrite requestHandler_dataset.
    pose proof (requestHandler_body_run request doc) as R. cbv zeta in R.
    rewrite R, D. destruct pdfs as [|p ps]; [| reflexivity].
    exfalso. apply NE. reflexivity. }
  assert (P : map pdf_url out = firstn 5 cands).
  { rewrite E, map_map. apply map_id. }
  split; [rewrite E, length_map, length_firstn; reflexivity |].
  split; [exact P |].
  split; [apply array_from_set_first_occurrences |].
  split; [rewrite P; apply NoDup_firstn, array_from_set_NoDup |].
  split; [exact E |].
  intros r Hr. rewrite E in Hr. apply in_map_iff in Hr.
  destruct Hr as (u & <- & _). repeat split.
Qed.

(** C2: when the detector returns an empty candidate set, the page
    gives exactly one record, with the empty string as [pdf_url], if
    and only if the executive summary is not empty or one of the report
    keywords occurs, whatever the case, in the first 2000 characters of
    the page text; otherwise it gives no record. *)
Theorem C2_html_record (request : Request) (doc : document)
    (found : list Request) (pdfs : list jsstring) :
  detect input doc (resolved_url request) = Ok pdfs ->
  array_from_set pdfs = [] ->
  let out := dataset (requestHandler input request doc found) in
  let likely :=
    exec_summary_of doc <> []
    \/ exists k, In k report_keywords
                 /\ occurs_ci k (firstn 2000 (body_text doc)) in
  (likely <-> exists r, out = [r] /\ pdf_url r = [])
  /\ (likely -> out = [record_for doc (resolved_url request) []])
  /\ (~ likely <-> out = []).
Proof.
  intros D E out likely.
  apply (proj1 (array_from_set_nil pdfs)) in E. subst pdfs.
  assert (R : out = if isLikelyReport doc
                    then [record_for doc (resolved_url request) []] else []).
  { unfold out. rewrite requestHandler_dataset.
    pose proof (requestHandler_body_run request doc) as R. cbv zeta in R.
    rewrite R, D. destruct (isLikelyReport doc); reflexivity. }
  pose proof (isLikelyReport_spec doc) as L. fold likely in L.
  rewrite R. destruct (isLikelyReport doc).
  - assert (likely) by (apply L; reflexivity).
    split; [| split].
    + split; [intros _; eexists; split; reflexivity | tauto].
    + reflexivity.
    + split; [tauto | discriminate].
  - assert (~ likely) by (intros HL; apply L in HL; discriminate).
    split; [| split].
    + split; [tauto | intros (r & Hr & _); discriminate].
    + tauto.
    + tauto.
Qed.

(** An anchor whose [href] the URL constructor rejects makes the
    detector throw, whatever the other anchors are. *)
Lemma each_anchor_throws (lu : jsstring) (anchors : selection)
    (pdfs : list jsstring) :
  (exists e, In e anchors
             /\ truthy (attr (lit "href") [e]) = true
             /\ url_resolve (to_str (attr (lit "href") [e])) lu = None) ->
  snd (each_anchor lu anchors pdfs empty_sink) = Throw invalid_url.
Proof.
  revert pdfs; induction anchors as [|a rest IH]; intros pdfs (e & Hin & Ht & Hr).
  - destruct Hin.
  - cbn [each_anchor]. destruct Hin as [-> | Hin].
    + rewrite Ht. cbn [negb]. unfold bind, lift, new_URL_toString.
      rewrite Hr. reflexivity.
    + assert (X : exists e, In e rest
                  /\ truthy (attr (lit "href") [e]) = true
                  /\ url_resolve (to_str (attr (lit "href") [e])) lu = None)
        by (exists e; auto).
      destruct (negb (truthy (attr (lit "href") [a]))); [apply IH, X |].
      unfold bind, lift.
      destruct (new_URL_toString (to_str (attr (lit "href") [a])) lu) as [ab | m] eqn:Ea.
      * cbv beta iota.
        destruct (endsWith (lit ".pdf") (toLowerCase ab)
                  || regex_test_i link_keywords (to_str (attr (lit "href") [a])));
          apply IH, X.
      * unfold new_URL_toString in Ea.
        destruct (url_resolve (to_str (attr (lit "href") [a])) lu); [discriminate |].
        inversion Ea. reflexivity.
Qed.

(** C10: with PDF detection on, one anchor whose non-empty [href] does
    not resolve against the page's resolved URL aborts the extraction
    of the whole page: no record is pushed, whatever the other anchors
    are; the error is logged as a warning and the handler returns
    normally. *)
Theorem C10_unresolvable_href_aborts_page (request : Request)
    (doc : document) (found : list Request) (e : elem) (href : jsstring) :
  detectPdfLinks input = true ->
  In e (all_elements doc) ->
  e_name e = lit "a" ->
  lookup (lit "href") (e_attrs e) = Some href ->
  href <> [] ->
  url_resolve href (resolved_url request) = None ->
  dataset (requestHandler input request doc found) = []
  /\ snd (requestHandler_body input request doc empty_sink) = Ok tt
  /\ logged (requestHandler input request doc found)
     = [{| level := Info; message := lit "Processing";
           data := [(lit "url", resolved_url request)] |};
        {| level := Warning; message := lit "Extraction error";
           data := [(lit "url", resolved_url request);
                    (lit "message", invalid_url)] |}].
Proof.
  intros On Hin Hname Hhref Hne Hres.
  assert (D : detect input doc (resolved_url request) = Throw invalid_url).
  { unfold detect, pdfs_of. rewrite On. apply each_anchor_throws.
    exists e. cbn [attr]. rewrite Hhref. cbn [to_str].
    split; [| split; [apply truthy_nonempty, Hne | exact Hres]].
    apply filter_In. split; [exact Hin |].
    unfold tag_is, has_attr. rewrite Hname, str_eqb_refl, Hhref. reflexivity. }
  pose proof (requestHandler_body_run request doc) as R. cbv zeta in R.
  unfold requestHandler. rewrite R, D. cbn [fst snd dataset logged pushed events].
  auto.
Qed.

End Run.

(** ** Metadata *)

Lemma text_single (e : elem) : text [e] = elem_text e.
Proof. unfold text. simpl. apply app_nil_r. Qed.

Lemma first_cases (s : selection) :
  first s = match s with [] => [] | e :: _ => [e] end.
Proof. destruct s; reflexivity. Qed.

(** *** Title *)

Lemma js_or_cascade (a b : jsval) (c d : jsstring) :
  to_str (js_or (js_or (js_or (js_or a b) (Some c)) (Some d)) (Some []))
  = first_nonempty [to_str a; to_str b; c; d].
Proof.
  destruct a as [[|x a]|], b as [[|y b]|], c as [|z c], d as [|w d]; reflexivity.
Qed.

Lemma attr_select_find (k : jsstring) (f : elem -> bool) (doc : document) :
  attr k (select doc f)
  = match find f (all_elements doc) with
    | Some e => lookup k (e_attrs e)
    | None => None
    end.
Proof.
  unfold select. induction (all_elements doc) as [|e l IH]; [reflexivity |].
  cbn [filter find]. destruct (f e); [reflexivity | exact IH].
Qed.

Lemma text_first_select (f : elem -> bool) (doc : document) :
  text (first (select doc f))
  = match find f (all_elements doc) with
    | Some e => elem_text e
    | None => []
    end.
Proof.
  unfold select. induction (all_elements doc) as [|e l IH]; [reflexivity |].
  cbn [filter find]. destruct (f e); [| exact IH].
  cbn [first firstn]. apply text_single.
Qed.

(** C8: the title is the first non-empty value among, in this order,
    the content of the first open-graph title meta, the content of the
    first twitter title meta, the trimmed text of the first level-1
    heading and the trimmed text of the title element. On the page with
    the open-graph title "OG Title" and the heading "H1 Title" it is
    "OG Title"; without a usable open-graph title it is the twitter
    title, without any title meta the first heading, and with a blank
    heading the text of the title element. *)
Theorem C8_title_cascade :
  (forall doc : document,
      title_of doc
      = first_nonempty [to_str (og_title doc); to_str (twitter_title doc);
                        h1_text doc; title_text doc])
  /\ og_title page_titles = Some (lit "OG Title")
  /\ h1_text page_titles = lit "H1 Title"
  /\ title_of page_titles = lit "OG Title"
  /\ title_of page_twitter_title = lit "Twitter Title"
  /\ title_of page_h1_title = lit "H1 Title"
  /\ title_of page_title_only = lit "Doc Title".
Proof.
  split.
  - intros doc. unfold title_of.
    rewrite js_or_cascade, !attr_select_find, text_first_select.
    unfold og_title, twitter_title, first_meta_content, h1_text, title_text.
    destruct (find (tag_is (lit "h1")) (all_elements doc)); reflexivity.
  - repeat split; vm_compute; reflexivity.
Qed.

(** *** Tags *)

Lemma tags_of_eq (doc : document) :
  tags_of doc
  = keyword_entries doc
    ++ (if regex_test_i [lit "esg"] (body_text doc) then [lit "esg"] else [])
    ++ (if regex_test_i [lit "sustainability"] (body_text doc)
        then [lit "sustainability"] else []).
Proof.
  unfold tags_of, keyword_entries.
  set (kw := attr content _).
  assert (K : (if truthy kw then map trim (split_on 44 (to_str kw)) else [])
              = match kw with
                | Some (c :: s) => map trim (split_on 44 (c :: s))
                | _ => []
                end)
    by (destruct kw as [[|c s]|]; reflexivity).
  rewrite K.
  destruct (regex_test_i [lit "esg"] (body_text doc)),
           (regex_test_i [lit "sustainability"] (body_text doc));
    rewrite ?app_nil_r, <- ?app_assoc; reflexivity.
Qed.

Lemma regex_single (k s : jsstring) :
  regex_test_i [k] s = true <-> occurs_ci k s.
Proof.
  unfold regex_test_i, occurs_ci. rewrite regex_test_spec. split.
  - intros (k' & [<- | []] & O). exact O.
  - intros O. exists k. split; [left; reflexivity | exact O].
Qed.

(** C9: the tags of a record are the trimmed comma-separated entries of
    the keywords meta (none when it is absent), with the tag "esg" when
    "esg" occurs in the page text whatever the case, and the tag
    "sustainability" likewise; each string is kept once, at its first
    occurrence, and strings that differ only in case are different
    tags. On the page with the keywords "ESG, esg, Sustainability" and
    both words in the body the tags are ESG, esg, Sustainability,
    sustainability. *)
Theorem C9_tag_set :
  (forall (doc : document) (lu pdfUrl : jsstring),
      let emitted := tags (record_for doc lu pdfUrl) in
      (forall x, In x emitted <->
         In x (keyword_entries doc)
         \/ (x = lit "esg" /\ occurs_ci (lit "esg") (body_text doc))
         \/ (x = lit "sustainability"
             /\ occurs_ci (lit "sustainability") (body_text doc)))
      /\ NoDup emitted
      /\ emitted = first_occurrences (tags_of doc))
  /\ keyword_entries page_tags = [lit "ESG"; lit "esg"; lit "Sustainability"]
  /\ (forall lu pdfUrl,
        tags (record_for page_tags lu pdfUrl)
        = [lit "ESG"; lit "esg"; lit "Sustainability"; lit "sustainability"]).
Proof.
  split; [| split; [vm_compute; reflexivity | intros; vm_compute; reflexivity]].
  intros doc lu pdfUrl emitted. unfold emitted. cbn [tags record_for].
  split; [| split].
  - intros x. rewrite array_from_set_In, tags_of_eq, !in_app_iff.
    rewrite <- !regex_single.
    destruct (regex_test_i [lit "esg"] (body_text doc)),
             (regex_test_i [lit "sustainability"] (body_text doc));
      simpl; intuition congruence.
  - apply array_from_set_NoDup.
  - apply array_from_set_first_occurrences.
Qed.

(** *** Executive summary *)

(** The loop gathers the kept texts of the next [fuel] sibling elements. *)
Lemma sibling_loop_spec (fuel : nat) (anc : list (jsstring * attribs))
    (fol : list node) (parts : list jsstring) :
  sibling_loop fuel (next_sibling anc fol) parts
  = parts ++ kept_texts (firstn fuel (filter is_element fol)).
Proof.
  revert fol parts; induction fuel as [|fuel IH]; intros fol parts.
  - simpl. rewrite app_nil_r. reflexivity.
  - induction fol as [|n rest IHfol].
    + cbn [next_sibling sibling_loop filter firstn]. change (next []) with (next_sibling anc []).
      rewrite IH. cbn [filter]. rewrite firstn_nil. reflexivity.
    + destruct n as [d | nm at_ ch].
      * cbn [next_sibling filter is_element]. exact IHfol.
      * cbn [next_sibling filter is_element firstn sibling_loop].
        rewrite text_single. unfold next. cbn [flat_map e_ancestors e_following].
        rewrite app_nil_r, IH. unfold kept_texts at 2. cbn [map filter].
        unfold elem_text. cbn [e_children text_of].
        destruct (truthy (Some (trim (concat (map text_of ch)))));
          [rewrite <- app_assoc |]; reflexivity.
Qed.

(** With a heading, the summary is made of its following siblings. *)
Lemma exec_summary_with_heading (doc : document) (h : elem) :
  execHeading doc = [h] ->
  exec_summary_of doc
  = firstn 4000 (join blank_line (kept_texts (firstn 6 (following_elements h)))).
Proof.
  intros E. unfold exec_summary_of. rewrite E. unfold next. cbn [flat_map].
  rewrite app_nil_r, sibling_loop_spec. reflexivity.
Qed.

(** Relative to the element the search returns, the summary is made of
    the up to six sibling elements that follow it: the non-empty
    trimmed texts of these, joined by a blank line and cut at 4000
    characters. *)
Lemma summary_from_found_element (doc : document) (h : elem) :
  execHeading doc = [h] ->
  let siblings := firstn 6 (following_elements h) in
  let joined := join blank_line (kept_texts siblings) in
  length siblings <= 6
  /\ exec_summary_of doc = firstn 4000 joined
  /\ length (exec_summary_of doc) <= 4000
  /\ (4000 < length joined ->
      length (exec_summary_of doc) = 4000
      /\ exists rest, joined = exec_summary_of doc ++ rest).
Proof.
  intros E siblings joined.
  pose proof (exec_summary_with_heading doc E) as S. fold siblings joined in S.
  split; [apply firstn_le_length |].
  split; [exact S |].
  rewrite S. split; [apply firstn_le_length |].
  intros L. split.
  - rewrite length_firstn. lia.
  - exists (skipn 4000 joined). symmetry. apply firstn_skipn.
Qed.

Lemma contains_spec (k : jsstring) (e : elem) :
  contains k e = true <-> occurs_exact k (getText (node_of e)).
Proof. apply includes_spec. Qed.

Lemma fills_refl (g : jsstring) : fills g g.
Proof. induction g; constructor; assumption. Qed.

Lemma fills_app (g1 t1 g2 t2 : jsstring) :
  fills g1 t1 -> fills g2 t2 -> fills (g1 ++ g2) (t1 ++ t2).
Proof.
  intros F1 F2. induction F1 as [|c g t F IH | b g t F IH]; cbn [app].
  - exact F2.
  - constructor. exact IH.
  - rewrite <- app_assoc. constructor. exact IH.
Qed.

(** The text cheerio reads is the text the selector engine reads, with
    the line feed of each [br] replaced by the text inside it. *)
Lemma getText_fills : forall n : node, fills (getText n) (text_of n).
Proof.
  fix IH 1. intros [d | nm at_ ch]; cbn [getText text_of].
  - apply fills_refl.
  - destruct (str_eqb nm (lit "br")).
    + rewrite <- (app_nil_r (concat (map text_of ch))).
      apply fills_break, fills_nil.
    + induction ch as [|m rest IHch]; cbn [map concat]; [constructor |].
      apply fills_app; [apply IH | exact IHch].
Qed.

Lemma fills_prefix (k : jsstring) :
  ~ In 10%N k ->
  forall g t post, fills g t -> g = k ++ post -> exists post', t = k ++ post'.
Proof.
  intros NL. induction k as [|c k IH]; intros g t post F E.
  - exists t. reflexivity.
  - cbn [app] in E. destruct F as [|c' g t F | b g t F].
    + discriminate.
    + inversion E; subst.
      destruct (IH (fun I => NL (or_intror I)) _ _ _ F eq_refl) as [post' ->].
      exists post'. reflexivity.
    + inversion E; subst. exfalso. apply NL. left. reflexivity.
Qed.

(** A phrase without a line feed that the selector engine finds in the
    text of a node stands in the text cheerio reads as well. *)
Lemma fills_occurs (k : jsstring) :
  ~ In 10%N k ->
  forall g t, fills g t -> occurs_exact k g -> occurs_exact k t.
Proof.
  intros NL g t F (pre & post & E). revert g t F E.
  induction pre as [|c pre IH]; intros g t F E.
  - destruct (@fills_prefix k NL _ _ _ F E) as [post' ->].
    exists [], post'. reflexivity.
  - cbn [app] in E. destruct F as [|c' g t F | b g t F].
    + discriminate.
    + inversion E; subst.
      destruct (IH _ _ F eq_refl) as (pre' & post' & ->).
      exists (c :: pre'), post'. reflexivity.
    + inversion E; subst.
      destruct (IH _ _ F eq_refl) as (pre' & post' & ->).
      exists (b ++ pre'), post'. rewrite <- app_assoc. reflexivity.
Qed.

Lemma getText_occurs_text (k : jsstring) (e : elem) :
  ~ In 10%N k ->
  occurs_exact k (getText (node_of e)) -> occurs_exact k (elem_text e).
Proof.
  intros NL. apply (@fills_occurs k NL _ _ (getText_fills (node_of e))).
Qed.

Lemma occurs_exact_ci (k k' s : jsstring) :
  Forall2 (fun p c => eq_ci p c = true) k' k ->
  occurs_exact k s -> occurs_ci k' s.
Proof.
  intros F (pre & post & E). exists pre, k, post. split; assumption.
Qed.

(** What the selector lets through passes the filter; the three
    phrases of the selector come down to two. *)
Lemma selector_then_filter (e : elem) :
  summary_selector e && summary_filter e = names_summary e.
Proof.
  assert (A : contains (lit "Executive Summary") e = true ->
              contains (lit "Summary") e = true).
  { rewrite !contains_spec. intros (pre & post & E).
    exists (pre ++ lit "Executive "), post.
    rewrite E, <- app_assoc. reflexivity. }
  assert (B : names_summary e = true -> summary_filter e = true).
  { unfold names_summary, summary_filter, regex_test_i.
    rewrite orb_true_iff, !contains_spec, text_single, regex_test_spec.
    intros [O | O].
    - exists (lit "summary"). split; [right; left; reflexivity |].
      apply getText_occurs_text in O; [| vm_compute; intuition discriminate].
      eapply occurs_exact_ci; [| exact O].
      vm_compute. repeat constructor.
    - exists (lit "executive summary"). split; [left; reflexivity |].
      apply getText_occurs_text in O; [| vm_compute; intuition discriminate].
      eapply occurs_exact_ci; [| exact O].
      vm_compute. repeat constructor. }
  unfold summary_selector, names_summary in *.
  destruct (contains (lit "Summary") e) eqn:C1.
  - rewrite orb_true_r. apply B. reflexivity.
  - destruct (contains (lit "Executive Summary") e) eqn:C0;
      [specialize (A eq_refl); discriminate |].
    destruct (contains (lit "EXECUTIVE SUMMARY") e) eqn:C2.
    + apply B. reflexivity.
    + reflexivity.
Qed.

Lemma execHeading_first (doc : document) :
  execHeading doc = first (filter names_summary (all_elements doc)).
Proof.
  unfold execHeading, select. rewrite filter_twice. f_equal.
  apply filter_same. intros e _. apply selector_then_filter.
Qed.

Lemma first_filter_find (A : Type) (f : A -> bool) (l : list A) :
  firstn 1 (filter f l) = match find f l with Some x => [x] | None => [] end.
Proof.
  induction l as [|a l IH]; [reflexivity |].
  simpl. destruct (f a); [reflexivity | exact IH].
Qed.

Lemma execHeading_find (doc : document) :
  execHeading doc
  = match find names_summary (all_elements doc) with
    | Some h => [h]
    | None => []
    end.
Proof. rewrite execHeading_first. apply first_filter_find. Qed.

(** The anchor and the fallback as the code has them: the anchor is
    the first element, in document order, in whose text the selector
    engine finds "Summary" or "EXECUTIVE SUMMARY" in exactly this case.
    With an anchor, the summary comes from the anchor's following
    siblings. Without one, the handler turns to the first paragraph of
    the content regions. *)
Lemma anchor_and_fallback (doc : document) :
  execHeading doc
  = match find names_summary (all_elements doc) with
    | Some h => [h]
    | None => []
    end
  /\ (forall e, names_summary e = true <->
        occurs_exact (lit "Summary") (getText (node_of e))
        \/ occurs_exact (lit "EXECUTIVE SUMMARY") (getText (node_of e)))
  /\ (forall h, find names_summary (all_elements doc) = Some h ->
        exec_summary_of doc
        = firstn 4000
            (join blank_line (kept_texts (firstn 6 (following_elements h)))))
  /\ (find names_summary (all_elements doc) = None ->
      (forall p rest,
          select doc content_paragraph = p :: rest ->
          exec_summary_of doc = firstn 4000 (trim (elem_text p)))
      /\ (select doc content_paragraph = [] -> exec_summary_of doc = [])).
Proof.
  pose proof (execHeading_find doc) as E.
  split; [exact E |].
  split.
  { intros e. unfold names_summary. rewrite orb_true_iff, !contains_spec. reflexivity. }
  split.
  { intros h F. rewrite F in E. apply exec_summary_with_heading, E. }
  intros F. rewrite F in E. unfold exec_summary_of. rewrite E. split.
  - intros p rest S. rewrite S. cbn [first firstn]. rewrite text_single.
    destruct (trim (elem_text p)); reflexivity.
  - intros S. rewrite S. reflexivity.
Qed.

(** C6: on a full page, a heading "Executive Summary" followed by six
    paragraphs whose joined text exceeds 4000 characters gives an empty
    summary, not the first 4000 characters of the joined text: the
    heading passes the tests of the search, but the element the search
    returns is the first in document order, the root, which holds the
    heading's text and has no sibling. *)
Theorem C6_heading_in_page_gives_no_summary :
  In heading_in_page (all_elements page_heading_six_paragraphs)
  /\ summary_selector heading_in_page = true
  /\ summary_filter heading_in_page = true
  /\ length (following_elements heading_in_page) = 6
  /\ 4000 < length (join blank_line
                      (kept_texts (firstn 6 (following_elements heading_in_page))))
  /\ map e_name (execHeading page_heading_six_paragraphs) = [lit "html"]
  /\ map following_elements (execHeading page_heading_six_paragraphs) = [[]]
  /\ exec_summary_of page_heading_six_paragraphs = [].
Proof.
  split; [vm_compute; do 3 right; left; reflexivity |].
  split; [vm_compute; reflexivity |].
  split; [vm_compute; reflexivity |].
  split; [reflexivity |].
  split; [apply Nat.ltb_lt; vm_compute; reflexivity |].
  repeat split; vm_compute; reflexivity.
Qed.

(** C7: the handler misses a heading in lower case. On the first page
    the text of an element reads "executive summary"; the handler's own
    case-insensitive test accepts it, but the case-sensitive selector
    before that test has dropped it, so no anchor is found and the
    summary is the fallback paragraph. On the second page no element
    matches, the first paragraph of the content region is blank and a
    non-empty one follows, yet the summary is empty. *)
Theorem C7_lowercase_heading_missed :
  In lowercase_heading (all_elements page_lowercase_heading)
  /\ elem_text lowercase_heading = lit "executive summary"
  /\ summary_filter lowercase_heading = true
  /\ summary_selector lowercase_heading = false
  /\ (exists e, spec_anchor page_lowercase_heading = Some e)
  /\ execHeading page_lowercase_heading = []
  /\ exec_summary_of page_lowercase_heading = lit "Fallback paragraph"
  /\ ~ summary_rule_as_specified page_lowercase_heading
  /\ spec_anchor page_blank_paragraph = None
  /\ spec_fallback page_blank_paragraph = lit "Real text"
  /\ exec_summary_of page_blank_paragraph = []
  /\ ~ summary_rule_as_specified page_blank_paragraph.
Proof.
  split; [vm_compute; do 3 right; left; reflexivity |].
  split; [reflexivity |].
  split; [vm_compute; reflexivity |].
  split; [vm_compute; reflexivity |].
  split; [eexists; vm_compute; reflexivity |].
  split; [vm_compute; reflexivity |].
  split; [vm_compute; reflexivity |].
  split; [intros [A _]; vm_compute in A; discriminate |].
  split; [vm_compute; reflexivity |].
  split; [vm_compute; reflexivity |].
  split; [vm_compute; reflexivity |].
  intros [_ B]. specialize (B eq_refl). vm_compute in B. discriminate.
Qed.

(** *** The anchor in a page with a root element *)

Lemma walk_children (anc : list (jsstring * attribs)) (nm : jsstring)
    (at_ : attribs) (ch fol : list node) :
  walk anc (Element nm at_ ch) fol
  = {| e_name := nm; e_attrs := at_; e_children := ch;
       e_ancestors := anc; e_following := fol |}
    :: walk_forest ((nm, at_) :: anc) ch.
Proof.
  cbn [walk]. f_equal. induction ch as [|m rest IH]; [reflexivity |].
  cbn [walk_forest]. rewrite <- IH. reflexivity.
Qed.

Lemma occurs_exact_app_l (k a b : jsstring) :
  occurs_exact k a -> occurs_exact k (a ++ b).
Proof.
  intros (pre & post & ->). exists pre, (post ++ b). rewrite <- !app_assoc. reflexivity.
Qed.

Lemma occurs_exact_app_r (k a b : jsstring) :
  occurs_exact k b -> occurs_exact k (a ++ b).
Proof.
  intros (pre & post & ->). exists (a ++ pre), post. rewrite <- !app_assoc. reflexivity.
Qed.

Lemma walk_getText_occurs (k : jsstring) :
  forall (n : node) anc fol e,
    void_breaks n = true ->
    In e (walk anc n fol) ->
    occurs_exact k (getText (node_of e)) -> occurs_exact k (getText n).
Proof.
  fix IH 1. intros [d | nm at_ ch] anc fol e V Hin Ho.
  - destruct Hin.
  - rewrite walk_children in Hin. destruct Hin as [<- | Hin]; [exact Ho |].
    cbn [void_breaks] in V. apply andb_true_iff in V. destruct V as [Vb Vc].
    cbn [getText]. destruct (str_eqb nm (lit "br")).
    + cbn [negb orb] in Vb. destruct ch; [destruct Hin | discriminate].
    + clear Vb. revert Vc Hin. generalize ((nm, at_) :: anc).
      induction ch as [|m rest IHch]; intros anc' Vc Hin; [destruct Hin |].
      cbn [forallb] in Vc. apply andb_true_iff in Vc. destruct Vc as [Vm Vr].
      cbn [walk_forest] in Hin. apply in_app_or in Hin. cbn [map concat].
      destruct Hin as [Hin | Hin].
      * apply occurs_exact_app_l. eapply IH; eassumption.
      * apply occurs_exact_app_r. eapply IHch; eassumption.
Qed.

Lemma walk_forest_skip_texts (anc : list (jsstring * attribs))
    (pre rest : list node) :
  filter is_element pre = [] ->
  walk_forest anc (pre ++ rest) = walk_forest anc rest.
Proof.
  induction pre as [|n pre IH]; intros F; [reflexivity |].
  destruct n as [d | nm at_ ch]; [| discriminate].
  cbn [app walk_forest walk]. apply IH, F.
Qed.

Lemma names_summary_spec (e : elem) :
  names_summary e = true <->
  occurs_exact (lit "Summary") (getText (node_of e))
  \/ occurs_exact (lit "EXECUTIVE SUMMARY") (getText (node_of e)).
Proof. unfold names_summary. rewrite orb_true_iff, !contains_spec. reflexivity. Qed.

(** In a document with one root element and empty [br] elements, the
    anchor, when there is one, is the root: its text holds the text of
    every element. The root has no sibling element, so the summary is
    empty. *)
Lemma single_root_anchor_is_root (pre post : list node) (nm : jsstring)
    (at_ : attribs) (ch : list node) :
  void_breaks (Element nm at_ ch) = true ->
  filter is_element pre = [] ->
  filter is_element post = [] ->
  let doc := pre ++ Element nm at_ ch :: post in
  execHeading doc <> [] ->
  execHeading doc
  = [{| e_name := nm; e_attrs := at_; e_children := ch;
        e_ancestors := []; e_following := post |}]
  /\ exec_summary_of doc = [].
Proof.
  intros V Fpre Fpost doc NE.
  set (root := {| e_name := nm; e_attrs := at_; e_children := ch;
                  e_ancestors := []; e_following := post |}).
  assert (A : all_elements doc = root :: walk_forest [(nm, at_)] ch).
  { unfold all_elements, doc. rewrite walk_forest_skip_texts by exact Fpre.
    cbn [walk_forest]. rewrite walk_children.
    rewrite <- (app_nil_r post) at 2.
    rewrite walk_forest_skip_texts by exact Fpost.
    cbn [walk_forest]. rewrite app_nil_r. reflexivity. }
  assert (R : names_summary root = true).
  { destruct (names_summary root) eqn:R; [reflexivity | exfalso].
    apply NE. rewrite execHeading_find, A.
    cbn [find]. rewrite R.
    destruct (find names_summary (walk_forest [(nm, at_)] ch)) as [e|] eqn:F;
      [| reflexivity].
    apply find_some in F. destruct F as [Hin He].
    assert (Hin' : In e (walk [] (Element nm at_ ch) post))
      by (rewrite walk_children; right; exact Hin).
    assert (names_summary root = true); [| congruence].
    apply names_summary_spec. apply names_summary_spec in He.
    destruct He as [O | O]; [left | right];
      apply (walk_getText_occurs _ _ _ _ V Hin' O). }
  assert (E : execHeading doc = [root]).
  { rewrite execHeading_find, A. cbn [find]. rewrite R.
    reflexivity. }
  split; [exact E |].
  rewrite (exec_summary_with_heading doc E).
  unfold following_elements. cbn [e_following root]. rewrite Fpost. reflexivity.
Qed.

(** ** The theorems at work on the example pages *)

(** C4 as the specification has it fails: a link found on the page of a
    tagged request is admitted and carries no tag. *)
Lemma C4_counterexample :
  ~ tag_copied_forward example_input tagged_request
      (found_link "https://corp.example/about")
  /\ exists r',
       transformRequestFunction example_input tagged_request
         (found_link "https://corp.example/about") = Some r'
       /\ req_startHost tagged_request = Some (lit "https://corp.example/")
       /\ req_startHost r' = None.
Proof.
  split.
  - intros C. specialize (C _ eq_refl). vm_compute in C. discriminate.
  - eexists. repeat split; vm_compute; reflexivity.
Qed.

Lemma C1_witness :
  detect example_input page_eight_pdfs (resolved_url example_request)
  = Ok eight_pdfs_found
  /\ array_from_set eight_pdfs_found <> []
  /\ length (dataset (requestHandler example_input example_request
                        page_eight_pdfs [])) = 5
  /\ map pdf_url (dataset (requestHandler example_input example_request
                             page_eight_pdfs []))
     = [lit "https://corp.example/r1.pdf"; lit "https://corp.example/r2.pdf";
        lit "https://corp.example/r3.pdf"; lit "https://corp.example/r4.pdf";
        lit "https://corp.example/r5.pdf"].
Proof.
  assert (D : detect example_input page_eight_pdfs (resolved_url example_request)
              = Ok eight_pdfs_found) by (vm_compute; reflexivity).
  assert (NE : array_from_set eight_pdfs_found <> []) by (vm_compute; discriminate).
  destruct (C1_pdf_records example_input example_request page_eight_pdfs [] D NE)
    as (L & P & _).
  split; [exact D | split; [exact NE | split]].
  - rewrite L. vm_compute. reflexivity.
  - rewrite P. vm_compute. reflexivity.
Defined.

Lemma C2_witness :
  detect example_input page_keyword (resolved_url example_request) = Ok []
  /\ array_from_set [] = []
  /\ dataset (requestHandler example_input example_request page_keyword [])
     = [record_for page_keyword (resolved_url example_request) []]
  /\ detect example_input page_plain (resolved_url example_request) = Ok []
  /\ dataset (requestHandler example_input example_request page_plain []) = [].
Proof.
  assert (D : detect example_input page_keyword (resolved_url example_request)
              = Ok []) by (vm_compute; reflexivity).
  assert (D' : detect example_input page_plain (resolved_url example_request)
               = Ok []) by (vm_compute; reflexivity).
  destruct (C2_html_record example_input example_request page_keyword [] D eq_refl)
    as (_ & Yes & _).
  destruct (C2_html_record example_input example_request page_plain [] D' eq_refl)
    as (_ & _ & No).
  split; [exact D | split; [reflexivity | split; [| split; [exact D' |]]]].
  - apply Yes. apply isLikelyReport_spec. vm_compute. reflexivity.
  - apply No. intros L. apply isLikelyReport_spec in L. vm_compute in L. discriminate.
Defined.

Lemma C3_witness :
  followInternalOnly example_input = true
  /\ url_host (req_url example_request) = Some (lit "corp.example")
  /\ url_host (lit "https://corp.example/about") = Some (lit "corp.example")
  /\ url_host (lit "https://other.example/") = Some (lit "other.example")
  /\ transformRequestFunction example_input example_request
       (found_link "https://corp.example/about")
     = Some (found_link "https://corp.example/about")
  /\ transformRequestFunction example_input example_request
       (found_link "https://other.example/") = None.
Proof.
  assert (S : match req_startHost example_request with
              | Some (c :: t) => url_host (c :: t)
              | _ => url_host (req_url example_request)
              end = Some (lit "corp.example")) by (vm_compute; reflexivity).
  assert (C : url_host (req_url (found_link "https://corp.example/about"))
              = Some (lit "corp.example")) by (vm_compute; reflexivity).
  assert (C' : url_host (req_url (found_link "https://other.example/"))
               = Some (lit "other.example")) by (vm_compute; reflexivity).
  destruct (C3_scope_filter example_input example_request
              (found_link "https://corp.example/about") eq_refl S C)
    as (Same & _).
  destruct (C3_scope_filter example_input example_request
              (found_link "https://other.example/") eq_refl S C')
    as (_ & Other).
  split; [reflexivity | split; [exact S | split; [exact C | split; [exact C' |]]]].
  split.
  - apply Same. reflexivity.
  - apply Other. vm_compute. discriminate.
Defined.

Lemma C4_witness :
  transformRequestFunction example_input example_request
    (found_link "https://corp.example/about")
  = Some (found_link "https://corp.example/about")
  /\ req_startHost (found_link "https://corp.example/about") = None
  /\ start_host (found_link "https://corp.example/about")
     = start_host example_request.
Proof.
  assert (A : transformRequestFunction example_input example_request
                (found_link "https://corp.example/about")
              = Some (found_link "https://corp.example/about"))
    by (vm_compute; reflexivity).
  destruct (C4_admitted_request example_input example_request _ A) as (_ & _ & S).
  assert (Hs : start_host example_request = Some (lit "corp.example"))
    by (vm_compute; reflexivity).
  assert (Hc : url_host (req_url (found_link "https://corp.example/about"))
               = Some (lit "corp.example")) by (vm_compute; reflexivity).
  destruct (S _ _ eq_refl Hs Hc) as (_ & S').
  split; [exact A | split; [reflexivity |]].
  rewrite (S' eq_refl). symmetry. exact Hs.
Defined.

Lemma C5_witness :
  followInternalOnly example_input = true
  /\ url_host (req_url (found_link "not a url")) = None
  /\ transformRequestFunction example_input example_request
       (found_link "not a url") = Some (found_link "not a url").
Proof.
  split; [reflexivity | split; [reflexivity |]].
  apply (C5_malformed_candidate_admitted example_input example_request
           (found_link "not a url")).
  reflexivity.
Defined.

Lemma summary_from_found_element_example :
  execHeading page_heading_then_paragraphs = [heading_elem]
  /\ length (following_elements heading_elem) = 3
  /\ length (exec_summary_of page_heading_then_paragraphs) = 4000
  /\ exists rest,
       join blank_line
         (kept_texts (firstn 6 (following_elements heading_elem)))
       = exec_summary_of page_heading_then_paragraphs ++ rest.
Proof.
  assert (E : execHeading page_heading_then_paragraphs = [heading_elem])
    by (vm_compute; reflexivity).
  destruct (summary_from_found_element page_heading_then_paragraphs E)
    as (_ & _ & _ & Long).
  assert (L : 4000 < length (join blank_line
                (kept_texts (firstn 6 (following_elements heading_elem))))).
  { apply Nat.ltb_lt. vm_compute. reflexivity. }
  destruct (Long L) as (Len & Pre).
  split; [exact E | split; [reflexivity | split; [exact Len | exact Pre]]].
Defined.

Lemma C10_witness :
  detectPdfLinks example_input = true
  /\ In bad_anchor (all_elements page_bad_link)
  /\ url_resolve (lit "/report.pdf") (resolved_url example_request)
     = Some (lit "https://corp.example/report.pdf")
  /\ url_resolve (lit "http://") (resolved_url example_request) = None
  /\ dataset (requestHandler example_input example_request page_bad_link []) = [].
Proof.
  assert (I : In bad_anchor (all_elements page_bad_link)).
  { vm_compute. do 4 right. left. reflexivity. }
  destruct (C10_unresolvable_href_aborts_page example_input example_request
              page_bad_link [] bad_anchor (href := lit "http://")
              eq_refl I eq_refl eq_refl)
    as (Empty & _).
  - vm_compute. discriminate.
  - reflexivity.
  - split; [reflexivity | split; [exact I | split; [reflexivity | split; [reflexivity | exact Empty]]]].
Defined.

(** * Further properties of the handler *)

(** ** Link admission along the crawl *)

Section Frontier.

Context `{URLParser}.

Variable input : Input.

(** X3: a [startHost] tag that the URL constructor rejects switches
    the host restriction off for the links of that page: the error is
    caught before any host is compared, and the filter hands back every
    candidate, also one on another host, although the origin's own URL
    parses. A tag that is a bare host name is such a tag. *)
Theorem X3_rejected_tag_admits_all (request r : Request) (c : N)
    (t : jsstring) :
  req_startHost request = Some (c :: t) ->
  url_host (c :: t) = None ->
  transformRequestFunction input request r = Some r.
Proof.
  intros Tag Bad. apply unreadable_start_host_admits.
  unfold start_host. rewrite Tag. exact Bad.
Qed.

Lemma admitted_chain_hosts (origin : Request) (path : list Request)
    (sh : jsstring) :
  followInternalOnly input = true ->
  start_host origin = Some sh ->
  Forall plain_link path ->
  admitted_chain input origin path ->
  Forall (fun r => url_host (req_url r) = Some sh) path.
Proof.
  intros On. revert origin. induction path as [|r rest IH]; intros origin Hs P C.
  - constructor.
  - inversion P as [|? ? [U Parses] Prest]; subst. destruct C as [A C].
    destruct (url_host (req_url r)) as [ch|] eqn:Hc; [| congruence].
    assert (ch = sh) by (eapply admitted_same_host; eauto). subst ch.
    constructor; [exact Hc |].
    apply (IH r); [| exact Prest | exact C].
    rewrite start_host_untagged; assumption.
Qed.

(** X4: with the host restriction on, along a path of the crawl whose
    links carry no tag and have URLs that parse, every request has the
    host of the seed's start host, at every depth. *)
Theorem X4_scope_along_path (seed : Request) (path : list Request)
    (sh : jsstring) :
  followInternalOnly input = true ->
  start_host seed = Some sh ->
  Forall plain_link path ->
  admitted_chain input seed path ->
  Forall (fun r => url_host (req_url r) = Some sh /\ start_host r = Some sh)
         path.
Proof.
  intros On Hs P C.
  pose proof (admitted_chain_hosts seed On Hs P C) as Hh.
  rewrite Forall_forall in *. intros r Hin. split; [apply Hh, Hin |].
  destruct (P r Hin) as [U _]. rewrite start_host_untagged by exact U.
  apply Hh, Hin.
Qed.

End Frontier.

(** ** The detector and the run of the handler *)

Lemma endsWith_spec (suf s : jsstring) :
  endsWith suf s = true <-> exists pre, s = pre ++ suf.
Proof.
  unfold endsWith. rewrite andb_true_iff, Nat.leb_le, str_eqb_eq. split.
  - intros [L E]. exists (firstn (length s - length suf) s).
    rewrite <- E at 2. symmetry. apply firstn_skipn.
  - intros [pre ->]. rewrite length_app. split; [lia |].
    replace (length pre + length suf - length suf) with (length pre) by lia.
    rewrite skipn_app, skipn_all, Nat.sub_diag. reflexivity.
Qed.

(** X5: the detector takes a link as a PDF by the last four characters
    of its resolved URL, whatever their case: the test succeeds exactly
    when the URL ends with a suffix that reads ".pdf" once lowered. *)
Theorem X5_pdf_suffix_any_case (abs : jsstring) :
  endsWith (lit ".pdf") (toLowerCase abs) = true <->
  exists pre suf,
    abs = pre ++ suf /\ length suf = 4 /\ toLowerCase suf = lit ".pdf".
Proof.
  rewrite endsWith_spec. unfold toLowerCase. split.
  - intros [pre' E].
    exists (firstn (length pre') abs), (skipn (length pre') abs).
    assert (L : length (map lower abs) = length pre' + 4)
      by (rewrite E, length_app; reflexivity).
    rewrite length_map in L.
    assert (S : map lower (skipn (length pre') abs) = lit ".pdf").
    { rewrite <- skipn_map, E, skipn_app, skipn_all, Nat.sub_diag. reflexivity. }
    split; [symmetry; apply firstn_skipn |].
    split; [rewrite length_skipn; lia | exact S].
  - intros (pre & suf & -> & _ & S). exists (map lower pre).
    rewrite map_app, S. reflexivity.
Qed.

Section Detector.

Context `{URLParser}.

Variable input : Input.

Lemma each_anchor_run (lu : jsstring) (anchors_ : selection)
    (acc : list jsstring) :
  snd (each_anchor lu anchors_ acc empty_sink)
  = if forallb (anchor_resolves lu) anchors_
    then Ok (acc ++ flat_map (anchor_candidate lu) anchors_)
    else Throw invalid_url.
Proof.
  revert acc; induction anchors_ as [|a rest IH]; intros acc.
  - simpl. rewrite app_nil_r. reflexivity.
  - cbn [each_anchor forallb flat_map attr].
    unfold anchor_resolves at 1, anchor_candidate at 1.
    destruct (lookup (lit "href") (e_attrs a)) as [[|c h]|];
      cbn [truthy negb to_str andb app]; try apply IH.
    unfold bind, lift, new_URL_toString.
    destruct (url_resolve (c :: h) lu) as [ab|]; [| reflexivity].
    cbv beta iota. cbn [andb]. fold (link_qualifies (c :: h) ab).
    destruct (link_qualifies (c :: h) ab); rewrite IH.
    + rewrite <- app_assoc. reflexivity.
    + reflexivity.
Qed.

(** X6: what the detector returns. With detection off it returns no
    candidate. With detection on it throws when the non-empty [href] of
    some anchor does not resolve; otherwise it returns, in document
    order and with repetitions, the resolved URL of every anchor with a
    non-empty [href] whose resolved URL ends in ".pdf" or whose raw
    [href] holds one of the link keywords. *)
Theorem X6_detector (doc : document) (lu : jsstring) :
  detect input doc lu
  = if detectPdfLinks input then
      if forallb (anchor_resolves lu) (anchors doc)
      then Ok (flat_map (anchor_candidate lu) (anchors doc))
      else Throw invalid_url
    else Ok [].
Proof.
  unfold detect, pdfs_of. destruct (detectPdfLinks input); [| reflexivity].
  fold (anchors doc). rewrite each_anchor_run. reflexivity.
Qed.

Lemma detect_off (doc : document) (lu : jsstring) :
  detectPdfLinks input = false -> detect input doc lu = Ok [].
Proof. intros Off. unfold detect, pdfs_of. rewrite Off. reflexivity. Qed.

(** X7: with PDF detection off the handler resolves no link, so no
    [href] can abort the page: it logs no warning, and it pushes at most
    one record, whose [pdf_url] is empty. *)
Theorem X7_detection_off (request : Request) (doc : document)
    (found : list Request) :
  detectPdfLinks input = false ->
  let out := requestHandler input request doc found in
  detect input doc (resolved_url request) = Ok []
  /\ length (dataset out) <= 1
  /\ (forall r, In r (dataset out) -> pdf_url r = [])
  /\ (forall ev, In ev (logged out) -> level ev <> Warning).
Proof.
  intros Off out.
  pose proof (detect_off doc (resolved_url request) Off) as D.
  pose proof (requestHandler_body_run input request doc) as R. cbv zeta in R.
  rewrite D in R. unfold out, requestHandler. rewrite R.
  cbn [fst dataset logged]. split; [exact D |].
  destruct (isLikelyReport doc); cbn [pushed events length];
    (split; [lia | split]).
  - intros r [<- | []]. reflexivity.
  - intros ev [<- | [<- | []]]; discriminate.
  - intros r [].
  - intros ev [<- | [<- | []]]; discriminate.
Qed.

(** X8: the handler never throws. Whatever the page, it pushes at most
    five records, and the records of one page agree in everything but
    [pdf_url]: the resolved URL of the page and the metadata extracted
    from it. *)
Theorem X8_handler_returns (request : Request) (doc : document)
    (found : list Request) :
  let out := requestHandler input request doc found in
  snd (requestHandler_body input request doc empty_sink) = Ok tt
  /\ length (dataset out) <= 5
  /\ (forall r, In r (dataset out) ->
        r = record_for doc (resolved_url request) (pdf_url r)).
Proof.
  intros out.
  pose proof (requestHandler_body_run input request doc) as R. cbv zeta in R.
  unfold out, requestHandler. rewrite R. cbn [fst snd dataset].
  split; [reflexivity |].
  destruct (detect input doc (resolved_url request)) as [[|p ps] | msg].
  - destruct (isLikelyReport doc); cbn [pushed length]; (split; [lia |]).
    + intros r [<- | []]. reflexivity.
    + intros r [].
  - cbn [pushed]. split.
    + rewrite length_map. apply firstn_le_length.
    + intros r Hr. apply in_map_iff in Hr. destruct Hr as (u & <- & _).
      reflexivity.
  - cbn [pushed length]. split; [lia | intros r []].
Qed.

(** X9: the log of a run. The first event is "Processing"; after it
    comes one event for each record pushed, or a single event when no
    record is pushed. A warning is logged exactly when the detector
    threw, and then no record is pushed. *)
Theorem X9_log_of_a_run (request : Request) (doc : document)
    (found : list Request) :
  let out := requestHandler input request doc found in
  hd_error (logged out)
  = Some {| level := Info; message := lit "Processing";
            data := [(lit "url", resolved_url request)] |}
  /\ length (logged out) = S (Nat.max 1 (length (dataset out)))
  /\ ((exists ev, In ev (logged out) /\ level ev = Warning) <->
      exists msg, detect input doc (resolved_url request) = Throw msg)
  /\ ((exists ev, In ev (logged out) /\ level ev = Warning) ->
      dataset out = []).
Proof.
  intros out.
  pose proof (requestHandler_body_run input request doc) as R. cbv zeta in R.
  unfold out, requestHandler. rewrite R. cbn [fst dataset logged].
  destruct (detect input doc (resolved_url request)) as [[|p ps] | msg].
  - destruct (isLikelyReport doc); cbn [pushed events length hd_error];
      (split; [reflexivity | split; [reflexivity | split; [split |]]]);
      try (intros (ev & [<- | [<- | []]] & W); discriminate);
      try (intros (m & D); discriminate).
  - cbn [pushed events hd_error length]. rewrite !length_map.
    split; [reflexivity | split; [| split; [split |]]].
    + rewrite array_from_set_first_occurrences.
      cbn [first_occurrences firstn length]. lia.
    + intros (ev & [<- | I] & W); [discriminate |].
      apply in_map_iff in I. destruct I as (u & <- & _). discriminate.
    + intros (m & D). discriminate.
    + intros (ev & [<- | I] & W); [discriminate |].
      apply in_map_iff in I. destruct I as (u & <- & _). discriminate.
  - cbn [pushed events hd_error length].
    split; [reflexivity | split; [reflexivity | split; [split |]]].
    + intros _. exists msg. reflexivity.
    + intros _. eexists. split; [right; left; reflexivity | reflexivity].
    + reflexivity.
Qed.

End Detector.

(** ** Keywords that add nothing *)

Lemma occurs_part (eqc : N -> N -> bool) (a k b s : jsstring) :
  occurs eqc (a ++ k ++ b) s -> occurs eqc k s.
Proof.
  intros (pre & m & post & -> & F).
  apply Forall2_app_inv_l in F. destruct F as (ma & m' & Fa & F & ->).
  apply Forall2_app_inv_l in F. destruct F as (mk & mb & Fk & Fb & ->).
  exists (pre ++ ma), mk, (mb ++ post). split; [| exact Fk].
  rewrite <- !app_assoc. reflexivity.
Qed.

Lemma regex_test_same (eqc : N -> N -> bool) (alts alts' : list jsstring)
    (s : jsstring) :
  (forall k, In k alts -> exists k', In k' alts' /\ (occurs eqc k s -> occurs eqc k' s)) ->
  (forall k, In k alts' -> exists k', In k' alts /\ (occurs eqc k s -> occurs eqc k' s)) ->
  regex_test eqc alts s = regex_test eqc alts' s.
Proof.
  intros To From. apply eq_iff_eq_true. rewrite !regex_test_spec. split.
  - intros (k & I & O). destruct (To k I) as (k' & I' & Imp). exists k'. auto.
  - intros (k & I & O). destruct (From k I) as (k' & I' & Imp). exists k'. auto.
Qed.

(** X10: three keywords of the handler's tests never change an outcome.
    A link whose [href] holds "sustainability-report" holds
    "sustainability", and a text that holds "sustainability report" or
    "esg report" holds "sustainability" or "esg": the link test is the
    test for esg, sustainability, annual-report and csr, and the page
    test is the test for sustainability, esg, csr, environmental, social
    and governance. *)
Theorem X10_redundant_keywords (s : jsstring) :
  regex_test_i link_keywords s
  = regex_test_i [lit "esg"; lit "sustainability"; lit "annual-report";
                  lit "csr"] s
  /\ regex_test_i report_keywords s
     = regex_test_i [lit "sustainability"; lit "esg"; lit "csr";
                     lit "environmental"; lit "social"; lit "governance"] s.
Proof.
  assert (SR : occurs eq_ci (lit "sustainability-report") s ->
               occurs eq_ci (lit "sustainability") s)
    by (apply (@occurs_part eq_ci [] (lit "sustainability") (lit "-report"))).
  assert (SR' : occurs eq_ci (lit "sustainability report") s ->
                occurs eq_ci (lit "sustainability") s)
    by (apply (@occurs_part eq_ci [] (lit "sustainability") (lit " report"))).
  assert (ER : occurs eq_ci (lit "esg report") s -> occurs eq_ci (lit "esg") s)
    by (apply (@occurs_part eq_ci [] (lit "esg") (lit " report"))).
  unfold regex_test_i, link_keywords, report_keywords.
  split; apply regex_test_same; intros k I; cbn [In] in I.
  - destruct I as [<- | [<- | [<- | [<- | [<- | []]]]]].
    + exists (lit "esg"). cbn [In]. auto.
    + exists (lit "sustainability"). cbn [In]. auto.
    + exists (lit "sustainability"). cbn [In]. auto.
    + exists (lit "annual-report"). cbn [In]. auto.
    + exists (lit "csr"). cbn [In]. auto 6.
  - exists k. cbn [In]. intuition auto.
  - destruct I as [<- | [<- | [<- | [<- | [<- | [<- | [<- | [<- | []]]]]]]]].
    + exists (lit "sustainability"). cbn [In]. auto.
    + exists (lit "esg"). cbn [In]. auto.
    + exists (lit "csr"). cbn [In]. auto.
    + exists (lit "environmental"). cbn [In]. auto 6.
    + exists (lit "social"). cbn [In]. auto 7.
    + exists (lit "governance"). cbn [In]. auto 8.
    + exists (lit "sustainability"). cbn [In]. auto.
    + exists (lit "esg"). cbn [In]. auto.
  - exists k. cbn [In]. intuition auto.
Qed.

(** X11: the callback of [.filter] removes nothing: every element the
    selector of the heading search lets through passes the
    case-insensitive test, so the heading is the first element the
    selector finds. *)
Theorem X11_filter_keeps_all (doc : document) :
  filter summary_filter (select doc summary_selector)
  = select doc summary_selector
  /\ execHeading doc = first (select doc summary_selector).
Proof.
  assert (E : filter summary_filter (select doc summary_selector)
              = select doc summary_selector).
  { apply filter_all. intros e He. apply filter_In in He. destruct He as [_ S].
    pose proof (selector_then_filter e) as SF. rewrite S in SF. cbn [andb] in SF.
    rewrite SF. unfold summary_selector, names_summary in *.
    destruct (contains (lit "Summary") e) eqn:C1; [reflexivity |].
    destruct (contains (lit "EXECUTIVE SUMMARY") e) eqn:C2; [reflexivity |].
    rewrite !orb_false_r in S. exfalso.
    apply contains_spec in S. destruct S as (pre & post & Ex).
    assert (C : contains (lit "Summary") e = true); [| congruence].
    apply contains_spec. exists (pre ++ lit "Executive "), post.
    rewrite Ex, <- app_assoc. reflexivity. }
  split; [exact E |]. unfold execHeading. rewrite E. reflexivity.
Qed.

(** ** Trimming and splitting *)

Lemma trim_start_head (s : jsstring) :
  match trim_start s with
  | [] => True
  | c :: _ => is_js_space c = false
  end.
Proof.
  induction s as [|c s IH]; [exact I |].
  cbn [trim_start]. destruct (is_js_space c) eqn:E; [exact IH | exact E].
Qed.

Lemma trim_start_suffix (s : jsstring) :
  exists sp, s = sp ++ trim_start s.
Proof.
  induction s as [|c s [sp IH]]; [exists []; reflexivity |].
  cbn [trim_start]. destruct (is_js_space c).
  - exists (c :: sp). cbn [app]. f_equal. exact IH.
  - exists []. reflexivity.
Qed.

Lemma trim_trimmed (s : jsstring) : trimmed (trim s).
Proof.
  unfold trimmed, trim. rewrite rev_involutive.
  split; [| apply trim_start_head].
  destruct (trim_start_suffix (rev (trim_start s))) as [sp E].
  apply (f_equal (@rev N)) in E. rewrite rev_involutive, rev_app_distr in E.
  destruct (rev (trim_start (rev (trim_start s)))) as [|c w]; [exact I |].
  pose proof (trim_start_head s) as Hd. rewrite E in Hd. exact Hd.
Qed.

Lemma trim_In (x : N) (s : jsstring) : In x (trim s) -> In x s.
Proof.
  unfold trim. intros Hx. apply in_rev in Hx.
  destruct (trim_start_suffix (rev (trim_start s))) as [sp E].
  assert (In x (rev (trim_start s))) by (rewrite E; apply in_or_app; auto).
  apply in_rev in H.
  destruct (trim_start_suffix s) as [sp' E'].
  rewrite E'. apply in_or_app. auto.
Qed.

Lemma split_on_no_sep (sep : N) (s p : jsstring) :
  In p (split_on sep s) -> ~ In sep p.
Proof.
  revert p; induction s as [|c s IH]; intros p Hp.
  - destruct Hp as [<- | []]. intros [].
  - cbn [split_on] in Hp. destruct (N.eqb c sep) eqn:E.
    + destruct Hp as [<- | Hp]; [intros [] | apply IH, Hp].
    + destruct (split_on sep s) as [|h t] eqn:S.
      * destruct Hp as [<- | []]. intros [-> | []].
        rewrite N.eqb_refl in E. discriminate.
      * destruct Hp as [<- | Hp].
        -- intros [-> | Hin]; [rewrite N.eqb_refl in E; discriminate |].
           apply (IH h); [left; reflexivity | exact Hin].
        -- apply IH. right. exact Hp.
Qed.

(** X12: no tag of a record begins or ends with white space, and none
    holds a comma: the keywords meta is cut at every comma and each
    piece is trimmed. *)
Theorem X12_tags_trimmed (doc : document) (lu pdfUrl t : jsstring) :
  In t (tags (record_for doc lu pdfUrl)) ->
  trimmed t /\ ~ In 44%N t.
Proof.
  cbn [tags record_for]. rewrite array_from_set_In, tags_of_eq, !in_app_iff.
  intros [K | [E | S]].
  - unfold keyword_entries in K.
    destruct (attr content _) as [[|c s]|]; try destruct K.
    apply in_map_iff in K. destruct K as (p & <- & Hp).
    split; [apply trim_trimmed |].
    intros Hc. apply trim_In in Hc. exact (split_on_no_sep _ _ _ Hp Hc).
  - destruct (regex_test_i [lit "esg"] (body_text doc)); [| destruct E].
    destruct E as [<- | []]. split; [vm_compute; auto |].
    vm_compute. intuition discriminate.
  - destruct (regex_test_i [lit "sustainability"] (body_text doc)); [| destruct S].
    destruct S as [<- | []]. split; [vm_compute; auto |].
    vm_compute. intuition discriminate.
Qed.

(** ** Company and date *)

Lemma js_or_cascade3 (a b c : jsval) (d : jsstring) :
  to_str (js_or (js_or (js_or (js_or a b) c) (Some d)) (Some []))
  = first_nonempty [to_str a; to_str b; to_str c; d].
Proof.
  destruct a as [[|x a]|], b as [[|y b]|], c as [[|z c]|], d as [|w d];
    reflexivity.
Qed.

(** X13: the company is the first non-empty value among, in this order,
    the content of the og:site_name meta, of the application-name meta
    and of the author meta, and the trimmed text of the first h1 or h2
    inside a header element; a meta with an empty content counts as
    missing. It is empty when all four are. *)
Theorem X13_company_cascade (doc : document) :
  company_of doc
  = first_nonempty [to_str (site_name doc); to_str (application_name doc);
                    to_str (author_meta doc); header_heading doc]
  /\ (company_of doc = [] <->
      to_str (site_name doc) = [] /\ to_str (application_name doc) = []
      /\ to_str (author_meta doc) = [] /\ header_heading doc = []).
Proof.
  assert (E : company_of doc
              = first_nonempty [to_str (site_name doc);
                                to_str (application_name doc);
                                to_str (author_meta doc); header_heading doc])
    by apply js_or_cascade3.
  split; [exact E |]. rewrite E.
  destruct (to_str (site_name doc)), (to_str (application_name doc)),
    (to_str (author_meta doc)), (header_heading doc); cbn [first_nonempty];
    intuition discriminate.
Qed.

Lemma begins_open_test (rest : jsstring) :
  match rest with
  | [] => true
  | c :: _ => negb (is_word c)
  end = true <-> begins_open rest.
Proof.
  destruct rest as [|c rest]; cbn [begins_open]; [tauto |].
  apply negb_true_iff.
Qed.

Lemma year_at_spec (s : jsstring) :
  year_at s = true <->
  exists y post, s = y ++ post /\ is_year y /\ begins_open post.
Proof.
  split.
  - destruct s as [|c1 [|c2 [|d1 [|d2 rest]]]]; try discriminate.
    cbn [year_at]. rewrite !andb_true_iff, orb_true_iff, !andb_true_iff,
      !N.eqb_eq, begins_open_test.
    intros [[[Y D1] D2] B]. exists [c1; c2; d1; d2], rest.
    split; [reflexivity | split; [| exact B]].
    exists d1, d2. destruct Y as [[-> ->] | [-> ->]]; auto.
  - intros (y & post & -> & (d1 & d2 & Y & D1 & D2) & B).
    apply begins_open_test in B.
    destruct Y as [-> | ->]; cbn [app year_at N.eqb Pos.eqb andb orb];
      rewrite D1, D2, B; reflexivity.
Qed.

(** The scan returns a year that stands alone; [prev] tells what stands
    before the scanned text. *)
Lemma year_match_sound (s : jsstring) (prev : bool) (y : jsstring) :
  year_match prev s = Some y ->
  exists pre post,
    s = pre ++ y ++ post /\ is_year y /\ begins_open post
    /\ match rev pre with
       | [] => prev = false
       | c :: _ => is_word c = false
       end.
Proof.
  revert prev; induction s as [|c s IH]; intros prev M; [discriminate |].
  cbn [year_match] in M.
  destruct (negb prev && year_at (c :: s)) eqn:T.
  - apply andb_true_iff in T. destruct T as [P Y].
    apply negb_true_iff in P. apply year_at_spec in Y.
    destruct Y as (y' & post & E & Hy & B).
    assert (y = y').
    { rewrite E in M.
      destruct Hy as (d1 & d2 & [-> | ->] & _); cbn in M; congruence. }
    subst y'. exists [], post. auto.
  - apply IH in M. destruct M as (pre & post & -> & Hy & B & L).
    exists (c :: pre), post. split; [reflexivity | split; [exact Hy | split; [exact B |]]].
    cbn [rev]. destruct (rev pre) as [|x w]; [exact L | exact L].
Qed.

(** The scan finds a year whenever one stands alone. *)
Lemma year_match_complete (pre y post : jsstring) (prev : bool) :
  is_year y -> begins_open post ->
  match rev pre with
  | [] => prev = false
  | c :: _ => is_word c = false
  end ->
  year_match prev (pre ++ y ++ post) <> None.
Proof.
  intros Hy B. revert prev; induction pre as [|c pre IH]; intros prev L.
  - cbn [rev] in L. subst prev. cbn [app].
    assert (Y : year_at (y ++ post) = true)
      by (apply year_at_spec; exists y, post; auto).
    destruct Hy as (d1 & d2 & [-> | ->] & _); cbn [app year_match negb andb] in *;
      rewrite Y; discriminate.
  - cbn [app year_match].
    destruct (negb prev && year_at (c :: pre ++ y ++ post)); [discriminate |].
    apply IH. cbn [rev] in L.
    destruct (rev pre) as [|x w]; [exact L | exact L].
Qed.

(** X14: the date is the first non-empty value the page declares (the
    article:published_time meta, the datetime attribute of the first
    time element, its trimmed text). Only when the page declares none is
    the text read: the date is then a year, 19 or 20 and two digits,
    that stands alone within the first 1200 characters of the body
    text, and it is empty exactly when no year stands alone there. *)
Theorem X14_date (doc : document) :
  let body := firstn 1200 (body_text doc) in
  (declared_date doc <> [] -> date_of doc = declared_date doc)
  /\ (declared_date doc = [] ->
      (date_of doc <> [] -> year_stands_in (date_of doc) body)
      /\ (date_of doc = [] <-> forall y, ~ year_stands_in y body)).
Proof.
  intros body.
  assert (D : date_of doc
              = match declared_date doc with
                | [] => match year_match false body with
                        | Some m0 => m0
                        | None => []
                        end
                | d => d
                end).
  { unfold date_of, declared_date, body, slice0.
    fold (published_time doc) (time_datetime doc) (time_text doc).
    destruct (published_time doc) as [[|x a]|],
             (time_datetime doc) as [[|y b]|],
             (time_text doc) as [|z c]; reflexivity. }
  split.
  - intros NE. rewrite D. destruct (declared_date doc); congruence.
  - intros E. rewrite D, E.
    destruct (year_match false body) as [m0|] eqn:M.
    + apply year_match_sound in M.
      destruct M as (pre & post & Eb & Hy & B & L).
      assert (Y : year_stands_in m0 body).
      { exists pre, post. split; [exact Eb | split; [exact Hy | split; [| exact B]]].
        unfold ends_open. destruct (rev pre); [exact I | exact L]. }
      split; [intros _; exact Y |].
      split.
      * intros ->. destruct Hy as (d1 & d2 & [F | F] & _); discriminate.
      * intros No. destruct (No m0 Y).
    + split; [congruence |].
      split; [| reflexivity].
      intros _ y (pre & post & Eb & Hy & Eo & B).
      apply (@year_match_complete pre y post false Hy B).
      * unfold ends_open in Eo. destruct (rev pre); [reflexivity | exact Eo].
      * rewrite <- Eb. exact M.
Qed.

(** ** Executive summary *)

Lemma kept_texts_In (ns : list node) (p : jsstring) :
  In p (kept_texts ns) -> p <> [] /\ trimmed p.
Proof.
  unfold kept_texts. intros Hp. apply filter_In in Hp. destruct Hp as [Hp T].
  apply truthy_nonempty in T. split; [exact T |].
  apply in_map_iff in Hp. destruct Hp as (n & <- & _). apply trim_trimmed.
Qed.

Lemma join_head (sep : jsstring) (parts : list jsstring) :
  (forall p, In p parts -> p <> [] /\ trimmed p) ->
  match join sep parts with
  | [] => True
  | c :: _ => is_js_space c = false
  end.
Proof.
  destruct parts as [|p rest]; intros A; [exact I |].
  destruct (A p (or_introl eq_refl)) as [NE [Hd _]].
  destruct p as [|c p]; [congruence |].
  cbn [join]. destruct rest; exact Hd.
Qed.

(** X15: on every page the executive summary has at most 4000
    characters and does not begin with white space. *)
Theorem X15_summary_bounds (doc : document) :
  length (exec_summary_of doc) <= 4000
  /\ match exec_summary_of doc with
     | [] => True
     | c :: _ => is_js_space c = false
     end.
Proof.
  destruct (execHeading doc) as [|h l] eqn:E.
  - unfold exec_summary_of. rewrite E.
    set (p := trim (text (first (select doc content_paragraph)))).
    pose proof (trim_trimmed (text (first (select doc content_paragraph)))) as [Hd _].
    fold p in Hd.
    destruct p as [|c p]; cbn [truthy]; [split; [cbn; lia | exact I] |].
    split; [apply firstn_le_length | exact Hd].
  - assert (l = []).
    { rewrite execHeading_find in E.
      destruct (find names_summary (all_elements doc)); congruence. }
    subst l. rewrite (exec_summary_with_heading doc E).
    split; [apply firstn_le_length |].
    pose proof (join_head blank_line
                  (kept_texts (firstn 6 (following_elements h)))
                  (kept_texts_In _)) as J.
    destruct (join blank_line (kept_texts (firstn 6 (following_elements h))));
      [exact I | exact J].
Qed.

Lemma single_element_split (doc : document) (root : node) :
  filter is_element doc = [root] ->
  exists pre post,
    doc = pre ++ root :: post
    /\ filter is_element pre = [] /\ filter is_element post = [].
Proof.
  induction doc as [|n doc IH]; [discriminate |].
  destruct n as [d | nm at_ ch]; cbn [filter is_element].
  - intros F. destruct (IH F) as (pre & post & -> & Fp & Fq).
    exists (Text d :: pre), post. auto.
  - intros F. inversion F as [[R F']]. exists [], doc. auto.
Qed.

(** X16: in a document with one root element, as the HTML parser
    makes it ([br] elements are empty), a heading found by the search
    is the root itself, since the text of the root holds the text of
    every element; the root has no sibling element, so the executive
    summary is empty, whatever follows the phrase in the page. *)
Theorem X16_rooted_document_summary_empty (doc : document) (nm : jsstring)
    (at_ : attribs) (ch : list node) :
  forallb void_breaks doc = true ->
  filter is_element doc = [Element nm at_ ch] ->
  execHeading doc <> [] ->
  map node_of (execHeading doc) = [Element nm at_ ch]
  /\ exec_summary_of doc = [].
Proof.
  intros V F NE.
  destruct (single_element_split doc F) as (pre & post & -> & Fp & Fq).
  rewrite forallb_app in V. apply andb_true_iff in V. destruct V as [_ V].
  cbn [forallb] in V. apply andb_true_iff in V. destruct V as [V _].
  destruct (single_root_anchor_is_root pre post nm at_ ch V Fp Fq NE) as [E S].
  split; [rewrite E; reflexivity | exact S].
Qed.

(** ** The further properties at work on the example pages *)

Lemma X3_witness :
  followInternalOnly example_input = true
  /\ req_startHost bare_tag_request = Some (lit "corp.example")
  /\ url_host (lit "corp.example") = None
  /\ url_host (req_url bare_tag_request) = Some (lit "corp.example")
  /\ transformRequestFunction example_input bare_tag_request
       (found_link "https://other.example/")
     = Some (found_link "https://other.example/").
Proof.
  split; [reflexivity | split; [reflexivity | split; [reflexivity |]]].
  split; [vm_compute; reflexivity |].
  apply (X3_rejected_tag_admits_all example_input bare_tag_request
           (found_link "https://other.example/") (c := 99%N)
           (t := lit "orp.example")); reflexivity.
Defined.

Lemma X4_witness :
  followInternalOnly example_input = true
  /\ start_host example_request = Some (lit "corp.example")
  /\ Forall plain_link site_path
  /\ admitted_chain example_input example_request site_path
  /\ Forall (fun r => url_host (req_url r) = Some (lit "corp.example")
                      /\ start_host r = Some (lit "corp.example"))
            site_path.
Proof.
  assert (Hs : start_host example_request = Some (lit "corp.example"))
    by (vm_compute; reflexivity).
  assert (P : Forall plain_link site_path).
  { repeat constructor; vm_compute; discriminate. }
  assert (C : admitted_chain example_input example_request site_path).
  { repeat split; vm_compute; reflexivity. }
  split; [reflexivity | split; [exact Hs | split; [exact P | split; [exact C |]]]].
  exact (X4_scope_along_path example_input example_request eq_refl Hs P C).
Defined.

Lemma X7_witness :
  detectPdfLinks open_input = false
  /\ detect open_input page_bad_link (resolved_url example_request) = Ok []
  /\ length (dataset (requestHandler open_input example_request
                        page_bad_link [])) <= 1.
Proof.
  destruct (X7_detection_off open_input example_request page_bad_link []
              eq_refl) as (D & L & _).
  split; [reflexivity | split; [exact D | exact L]].
Defined.

Lemma X12_witness :
  In (lit "ESG")
     (tags (record_for page_tags (resolved_url example_request) []))
  /\ trimmed (lit "ESG") /\ ~ In 44%N (lit "ESG").
Proof.
  assert (I : In (lit "ESG")
                (tags (record_for page_tags (resolved_url example_request) [])))
    by (vm_compute; left; reflexivity).
  split; [exact I |].
  exact (X12_tags_trimmed page_tags (resolved_url example_request) []
           (lit "ESG") I).
Defined.

Lemma X16_witness :
  forallb void_breaks page_heading_in_html = true
  /\ filter is_element page_heading_in_html
  = [Element (lit "html") []
       [Element (lit "head") [] [];
        Element (lit "body") []
          [Element (lit "h2") [] [Text (lit "Executive Summary")];
           Element (lit "p") [] [Text (lit "The year in brief.")]]]]
  /\ execHeading page_heading_in_html <> []
  /\ exec_summary_of page_heading_in_html = [].
Proof.
  assert (F : filter is_element page_heading_in_html
              = [Element (lit "html") []
                   [Element (lit "head") [] [];
                    Element (lit "body") []
                      [Element (lit "h2") [] [Text (lit "Executive Summary")];
                       Element (lit "p") [] [Text (lit "The year in brief.")]]]])
    by reflexivity.
  assert (NE : execHeading page_heading_in_html <> [])
    by (vm_compute; discriminate).
  destruct (X16_rooted_document_summary_empty page_heading_in_html
              eq_refl F NE) as [_ S].
  split; [reflexivity | split; [exact F | split; [exact NE | exact S]]].
Defined.

(** The company and the date on two pages: an author meta with an empty
    content is passed over for the heading in the header, the time
    element wins over a year in the text, and the scan passes over
    digits that do not stand alone. *)
Example company_and_date_examples :
  company_of page_header_and_time = lit "ACME Corp"
  /\ date_of page_header_and_time = lit "2024-03-01"
  /\ declared_date page_year_in_text = []
  /\ date_of page_year_in_text = lit "2023".
Proof. repeat split; vm_compute; reflexivity. Qed.

(** The class test and the text the selector engine reads, on small
    inputs: a class name between white space of any kind, also a
    no-break space, is found, and a part of a longer name is not; a
    [br] inside the phrase keeps [:contains] from finding it, though
    the text cheerio reads holds the phrase. *)
Example selector_examples :
  class_scan true (lit "content") (lit "main content") = true
  /\ class_scan true (lit "content") (lit "content" ++ [160%N] ++ lit "x") = true
  /\ class_scan true (lit "content") (lit "contents") = false
  /\ class_scan true (lit "content") (lit "my-content") = false
  /\ getText (Element (lit "div") []
                [Text (lit "Summ"); Element (lit "br") [] []; Text (lit "ary")])
     = lit "Summ" ++ [10%N] ++ lit "ary"
  /\ text_of (Element (lit "div") []
                [Text (lit "Summ"); Element (lit "br") [] []; Text (lit "ary")])
     = lit "Summary"
  /\ execHeading [Element (lit "div") []
                    [Text (lit "Summ"); Element (lit "br") [] []; Text (lit "ary")]]
     = [].
Proof. repeat split; vm_compute; reflexivity. Qed.
